(** * sol-acc: a shallow embedding of [src/src/main.rs]

    The program fetches the accounts owned by a Solana program through
    [getProgramAccounts], optionally filters and slices them on the server,
    and prints a JSON report, decoding each payload either as a raw view
    (hex, base64, size) or with the [alt] (Address Lookup Table) decoder.

    The codecs the program gets from its dependencies ([hex], [base64ct],
    [bs58], [bincode]) are written out here as the standard algorithms they
    implement; the zstd decompressor is kept abstract (a section variable). *)

From Stdlib Require Import String Ascii List NArith ZArith Lia Bool.
Import ListNotations.

Open Scope N_scope.
Set Warnings "-register-all".

(** ** Results, as Rust's [Result] *)

Inductive result (A E : Type) : Type :=
| Ok (a : A)
| Err (e : E).
Arguments Ok {A E} a.
Arguments Err {A E} e.

Definition rbind {A B E} (m : result A E) (f : A -> result B E) : result B E :=
  match m with
  | Ok a => f a
  | Err e => Err e
  end.

Definition map_err {A E F} (g : E -> F) (m : result A E) : result A F :=
  match m with
  | Ok a => Ok a
  | Err e => Err (g e)
  end.

Notation "'let?' x := m 'in' k" := (rbind m (fun x => k))
  (at level 200, x name, m at level 100, k at level 200).

Definition obind {A B} (m : option A) (f : A -> option B) : option B :=
  match m with
  | Some a => f a
  | None => None
  end.

(** ** Strings and characters *)

Fixpoint str_nth (s : string) (n : nat) : option ascii :=
  match s, n with
  | EmptyString, _ => None
  | String c _, O => Some c
  | String _ r, S k => str_nth r k
  end.

Fixpoint str_index (c : ascii) (s : string) : option nat :=
  match s with
  | EmptyString => None
  | String d r =>
      if Ascii.eqb c d then Some O
      else option_map S (str_index c r)
  end.

(** [str::split(sep)]: every occurrence of [sep] separates two parts. *)
Fixpoint split (sep : ascii) (s : string) : list string :=
  match s with
  | EmptyString => [EmptyString]
  | String c r =>
      let parts := split sep r in
      if Ascii.eqb c sep then EmptyString :: parts
      else match parts with
           | p :: ps => String c p :: ps
           | [] => [String c EmptyString]
           end
  end.

Fixpoint count_char (c : ascii) (s : string) : nat :=
  match s with
  | EmptyString => O
  | String d r => (if Ascii.eqb d c then 1 else 0) + count_char c r
  end.

(** [str::starts_with] and the byte slice [&s[k..]]. *)
Fixpoint starts_with (p s : string) : bool :=
  match p, s with
  | EmptyString, _ => true
  | String a p', String b s' => Ascii.eqb a b && starts_with p' s'
  | String _ _, EmptyString => false
  end.

Fixpoint drop (k : nat) (s : string) : string :=
  match k, s with
  | O, _ => s
  | S k', String _ r => drop k' r
  | S _, EmptyString => EmptyString
  end.

(** ** [u64::from_str] / [usize::from_str] (64-bit target) *)

Inductive ParseIntError := IntEmpty | IntInvalidDigit | IntPosOverflow.

Definition digit_value (c : ascii) : option N :=
  let k := N_of_ascii c in
  if (48 <=? k) && (k <=? 57) then Some (k - 48) else None.

Fixpoint parse_digits (s : string) (acc : N) : result N ParseIntError :=
  match s with
  | EmptyString => Ok acc
  | String c r =>
      match digit_value c with
      | None => Err IntInvalidDigit
      | Some d =>
          let acc' := acc * 10 + d in
          if 2 ^ 64 <=? acc' then Err IntPosOverflow else parse_digits r acc'
      end
  end.

Definition parse_u64 (s : string) : result N ParseIntError :=
  match s with
  | EmptyString => Err IntEmpty
  | String "+" EmptyString => Err IntInvalidDigit
  | String "+" r => parse_digits r 0
  | _ => parse_digits s 0
  end.

(** ** Bytes *)

Definition byte := Byte.byte.

Definition bval (b : byte) : N := Byte.to_N b.

(** The [hex] crate. *)
Module Hex.

Inductive FromHexError :=
| InvalidHexCharacter (c : ascii) (index : nat)
| OddLength.

Definition digit (n : N) : ascii :=
  if n <? 10 then ascii_of_N (48 + n) else ascii_of_N (87 + n).

Definition val (c : ascii) (index : nat) : result N FromHexError :=
  let k := N_of_ascii c in
  if (48 <=? k) && (k <=? 57) then Ok (k - 48)
  else if (97 <=? k) && (k <=? 102) then Ok (k - 87)
  else if (65 <=? k) && (k <=? 70) then Ok (k - 55)
  else Err (InvalidHexCharacter c index).

(** [hex::encode]: two lowercase digits per byte. *)
Fixpoint encode (data : list byte) : string :=
  match data with
  | [] => EmptyString
  | b :: rest =>
      String (digit (bval b / 16)) (String (digit (bval b mod 16)) (encode rest))
  end.

Fixpoint decode_pairs (s : string) (index : nat) : result (list byte) FromHexError :=
  match s with
  | String h (String l rest) =>
      let? hi := val h index in
      let? lo := val l (S index) in
      let? tail := decode_pairs rest (S (S index)) in
      match Byte.of_N (hi * 16 + lo) with
      | Some b => Ok (b :: tail)
      | None => Err OddLength
      end
  | String _ EmptyString => Err OddLength
  | EmptyString => Ok []
  end.

(** [hex::decode]: an odd length is refused before any digit is read. *)
Definition decode (s : string) : result (list byte) FromHexError :=
  if Nat.odd (String.length s) then Err OddLength else decode_pairs s O.

End Hex.

(** The standard base64 alphabet with padding ([base64ct::Base64] to
    encode, the [base64] crate's [STANDARD] engine to decode). *)
Module Base64.

Definition alphabet : string :=
  "ABCDEFGHIJKLMNOPQRSTUVWXYZabcdefghijklmnopqrstuvwxyz0123456789+/".

Definition sym (n : N) : ascii :=
  match str_nth alphabet (N.to_nat n) with
  | Some c => c
  | None => "A"%char
  end.

Definition idx (c : ascii) : option N := option_map N.of_nat (str_index c alphabet).

Definition pad : ascii := "="%char.

Fixpoint encode (data : list byte) : string :=
  match data with
  | a :: b :: c :: rest =>
      String (sym (bval a / 4))
        (String (sym ((bval a mod 4) * 16 + bval b / 16))
           (String (sym ((bval b mod 16) * 4 + bval c / 64))
              (String (sym (bval c mod 64)) (encode rest))))
  | [a; b] =>
      String (sym (bval a / 4))
        (String (sym ((bval a mod 4) * 16 + bval b / 16))
           (String (sym ((bval b mod 16) * 4)) (String pad EmptyString)))
  | [a] =>
      String (sym (bval a / 4))
        (String (sym ((bval a mod 4) * 16)) (String pad (String pad EmptyString)))
  | [] => EmptyString
  end.

Definition byte_of (n : N) : option byte := Byte.of_N n.

(** Canonical decoding: padding only in the last quantum, and the bits
    the padding drops must be zero. *)
Fixpoint decode (s : string) : option (list byte) :=
  match s with
  | EmptyString => Some []
  | String c1 (String c2 (String c3 (String c4 rest))) =>
      obind (idx c1) (fun v1 =>
      obind (idx c2) (fun v2 =>
      match rest, Ascii.eqb c3 pad, Ascii.eqb c4 pad with
      | EmptyString, true, true =>
          if v2 mod 16 =? 0 then
            obind (byte_of (v1 * 4 + v2 / 16)) (fun a => Some [a])
          else None
      | EmptyString, false, true =>
          obind (idx c3) (fun v3 =>
          if v3 mod 4 =? 0 then
            obind (byte_of (v1 * 4 + v2 / 16)) (fun a =>
            obind (byte_of ((v2 mod 16) * 16 + v3 / 4)) (fun b => Some [a; b]))
          else None)
      | _, _, _ =>
          obind (idx c3) (fun v3 =>
          obind (idx c4) (fun v4 =>
          obind (byte_of (v1 * 4 + v2 / 16)) (fun a =>
          obind (byte_of ((v2 mod 16) * 16 + v3 / 4)) (fun b =>
          obind (byte_of ((v3 mod 4) * 64 + v4)) (fun c =>
          obind (decode rest) (fun tail => Some (a :: b :: c :: tail)))))))
      end))
  | _ => None
  end.

End Base64.
(** The [bs58] crate (Bitcoin alphabet). *)
Module Base58.

Definition alphabet : string :=
  "123456789ABCDEFGHJKLMNPQRSTUVWXYZabcdefghijkmnopqrstuvwxyz".

Inductive Error := InvalidCharacter (c : ascii) (index : nat).

Fixpoint digits (s : string) (index : nat) : result (list N) Error :=
  match s with
  | EmptyString => Ok []
  | String c r =>
      match str_index c alphabet with
      | None => Err (InvalidCharacter c index)
      | Some d => let? ds := digits r (S index) in Ok (N.of_nat d :: ds)
      end
  end.

Fixpoint leading_ones (s : string) : nat :=
  match s with
  | String "1" r => S (leading_ones r)
  | _ => O
  end.

Definition low_byte (n : N) : byte :=
  match Byte.of_N (n mod 256) with Some b => b | None => Byte.x00 end.

(** Minimal big-endian bytes of [n]; [fuel] bounds their number. *)
Fixpoint be_bytes (fuel : nat) (n : N) : list byte :=
  match fuel with
  | O => []
  | S f => if n =? 0 then [] else be_bytes f (n / 256) ++ [low_byte n]
  end.

(** Each leading ['1'] stands for one zero byte; the rest is the number
    written in base 58. *)
Definition decode (s : string) : result (list byte) Error :=
  let? ds := digits s O in
  let value := fold_left (fun acc d => acc * 58 + d) ds 0 in
  Ok (repeat Byte.x00 (leading_ones s) ++ be_bytes (String.length s) value).

Fixpoint leading_zero_bytes (l : list byte) : nat :=
  match l with
  | b :: r => if bval b =? 0 then S (leading_zero_bytes r) else O
  | [] => O
  end.

Fixpoint be_digits (fuel : nat) (n : N) : list N :=
  match fuel with
  | O => []
  | S f => if n =? 0 then [] else be_digits f (n / 58) ++ [n mod 58]
  end.

Definition sym (d : N) : ascii :=
  match str_nth alphabet (N.to_nat d) with Some c => c | None => "1"%char end.

Definition encode (data : list byte) : string :=
  let value := fold_left (fun acc b => acc * 256 + bval b) data 0 in
  string_of_list_ascii
    (repeat "1"%char (leading_zero_bytes data)
     ++ map sym (be_digits (2 * length data) value)).

End Base58.

(** ** [solana_pubkey::Pubkey]: 32 bytes, shown in base58 *)

Definition Pubkey := list byte.

Definition PUBKEY_BYTES : nat := 32.
Definition MAX_BASE58_LEN : nat := 44.

Inductive ParsePubkeyError := WrongSize | Invalid.

(** [Pubkey::from_str]: [bs58::decode(s).onto(&mut [0; 32])], so a longer
    result overflows the buffer ([Invalid]) and a shorter one is [WrongSize]. *)
Definition pubkey_from_str (s : string) : result Pubkey ParsePubkeyError :=
  if Nat.ltb MAX_BASE58_LEN (String.length s) then Err WrongSize
  else match Base58.decode s with
       | Err _ => Err Invalid
       | Ok bytes =>
           if Nat.ltb PUBKEY_BYTES (length bytes) then Err Invalid
           else if Nat.eqb (length bytes) PUBKEY_BYTES then Ok bytes
           else Err WrongSize
       end.

Definition pubkey_to_string (pk : Pubkey) : string := Base58.encode pk.

(** ** [serde_json::Value] *)

Inductive Value :=
| Null
| Bool (b : bool)
| Number (n : Z)
| JString (s : string)
| Array (items : list Value)
| Object (fields : list (string * Value)).

(** ** Address Lookup Table state ([solana_address_lookup_table_interface]) *)

Inductive InstructionError := InvalidAccountData | UninitializedAccount.

Definition LOOKUP_TABLE_META_SIZE : nat := 56.

Record LookupTableMeta := {
  deactivation_slot : N;
  last_extended_slot : N;
  last_extended_slot_start_index : N;
  authority : option Pubkey;
}.

Record AddressLookupTable := {
  meta : LookupTableMeta;
  addresses : list Pubkey;
}.

(** bincode reads fixed-width little-endian integers; a short input fails. *)
Definition read_le (n : nat) (data : list byte) : option (N * list byte) :=
  if Nat.ltb (length data) n then None
  else Some (fold_right (fun b acc => bval b + 256 * acc) 0 (firstn n data), skipn n data).

Definition read_option_pubkey (data : list byte) : option (option Pubkey * list byte) :=
  obind (read_le 1 data) (fun '(tag, rest) =>
    if tag =? 0 then Some (None, rest)
    else if tag =? 1 then
      if Nat.ltb (length rest) PUBKEY_BYTES then None
      else Some (Some (firstn PUBKEY_BYTES rest), skipn PUBKEY_BYTES rest)
    else None).

Inductive ProgramState :=
| Uninitialized
| LookupTable (m : LookupTableMeta).

(** [bincode::deserialize::<ProgramState>]: a [u32] variant index, then the
    fields of [LookupTableMeta] (the last being a [u16] padding). *)
Definition deserialize_program_state (data : list byte) : option ProgramState :=
  obind (read_le 4 data) (fun '(tag, r0) =>
    if tag =? 0 then Some Uninitialized
    else if tag =? 1 then
      obind (read_le 8 r0) (fun '(ds, r1) =>
      obind (read_le 8 r1) (fun '(ls, r2) =>
      obind (read_le 1 r2) (fun '(li, r3) =>
      obind (read_option_pubkey r3) (fun '(auth, r4) =>
      obind (read_le 2 r4) (fun '(_, _) =>
        Some (LookupTable {| deactivation_slot := ds; last_extended_slot := ls;
                             last_extended_slot_start_index := li;
                             authority := auth |}))))))
    else None).

Fixpoint chunks (fuel : nat) (l : list byte) : list Pubkey :=
  match fuel with
  | O => []
  | S f =>
      match l with
      | [] => []
      | _ => firstn PUBKEY_BYTES l :: chunks f (skipn PUBKEY_BYTES l)
      end
  end.

(** [AddressLookupTable::deserialize]: the meta, then the raw addresses
    after [LOOKUP_TABLE_META_SIZE] bytes cast to a slice of [Pubkey]s. *)
Definition alt_deserialize (data : list byte) : result AddressLookupTable InstructionError :=
  match deserialize_program_state data with
  | None => Err InvalidAccountData
  | Some Uninitialized => Err UninitializedAccount
  | Some (LookupTable m) =>
      if Nat.ltb (length data) LOOKUP_TABLE_META_SIZE then Err InvalidAccountData
      else
        let raw := skipn LOOKUP_TABLE_META_SIZE data in
        if Nat.eqb (Nat.modulo (length raw) PUBKEY_BYTES) 0
        then Ok {| meta := m; addresses := chunks (length raw) raw |}
        else Err InvalidAccountData
  end.
(** ** RPC request types ([solana_client::rpc_config], [rpc_filter]) *)

Inductive UiAccountEncoding := Binary | Base58Enc | Base64Enc | JsonParsed | Base64Zstd.

Inductive CommitmentLevel := Processed | Confirmed | Finalized.

Inductive MemcmpEncodedBytes :=
| MBase58 (s : string)
| MBase64 (s : string)
| Bytes (bs : list byte).

Record Memcmp := { memcmp_offset : N; memcmp_bytes : MemcmpEncodedBytes }.

Definition Memcmp_new (offset : N) (encoded_bytes : MemcmpEncodedBytes) : Memcmp :=
  {| memcmp_offset := offset; memcmp_bytes := encoded_bytes |}.

Inductive RpcFilterType :=
| DataSize (n : N)
| MemcmpFilter (m : Memcmp)
| TokenAccountState.

Record UiDataSliceConfig := { slice_offset : N; slice_length : N }.

Record RpcAccountInfoConfig := {
  encoding : option UiAccountEncoding;
  data_slice : option UiDataSliceConfig;
  commitment : option CommitmentLevel;
  min_context_slot : option N;
}.

Record RpcProgramAccountsConfig := {
  filters : option (list RpcFilterType);
  account_config : RpcAccountInfoConfig;
  with_context : option bool;
  sort_results : option bool;
}.

Record RpcClient := { client_url : string; timeout_secs : N; client_commitment : CommitmentLevel }.

Definition RpcClient_new_with_timeout_and_commitment
    (u : string) (t : N) (c : CommitmentLevel) : RpcClient :=
  {| client_url := u; timeout_secs := t; client_commitment := c |}.

(** ** Accounts in the RPC response ([solana_client::rpc_response::UiAccount]) *)

Inductive UiAccountData :=
| LegacyBinary (blob : string)
| Json (parsed : Value)
| BinaryData (blob : string) (enc : UiAccountEncoding).

Record UiAccount := {
  lamports : N;
  acc_data : UiAccountData;
  owner : string;
  executable : bool;
  rent_epoch : N;
}.

(** ** Errors carried by [anyhow::Error] in [main] *)

Inductive Error :=
| EParsePubkey (e : ParsePubkeyError)
| EDataRange
| EParseInt (e : ParseIntError)
| EFilterSyntax
| EFromHex (e : Hex.FromHexError)
| EUnknownParser (p : string)
| EClient (msg : string)
| EInstruction (e : InstructionError)
| EIo (msg : string).

Definition display_instruction_error (e : InstructionError) : string :=
  match e with
  | InvalidAccountData => "invalid account data for instruction"
  | UninitializedAccount => "instruction requires an initialized account"
  end.

Definition display_error (e : Error) : string :=
  match e with
  | EParsePubkey WrongSize => "String is the wrong size"
  | EParsePubkey Invalid => "Invalid Base58 string"
  | EDataRange => "Data range must be offset:size"
  | EParseInt IntEmpty => "cannot parse integer from empty string"
  | EParseInt IntInvalidDigit => "invalid digit found in string"
  | EParseInt IntPosOverflow => "number too large to fit in target type"
  | EFilterSyntax => "Filter must be offset:data"
  | EFromHex Hex.OddLength => "Odd number of digits"
  | EFromHex (Hex.InvalidHexCharacter _ _) => "Invalid character"
  | EUnknownParser p => "Unknown parser: " ++ p
  | EClient msg => msg
  | EInstruction i => display_instruction_error i
  | EIo msg => msg
  end.

(** Decimal rendering of a count, as [{}] prints a [usize]. *)
Fixpoint decimal_aux (fuel : nat) (n : N) (acc : string) : string :=
  match fuel with
  | O => acc
  | S f =>
      let acc' := String (ascii_of_N (48 + n mod 10)) acc in
      if n <? 10 then acc' else decimal_aux f (n / 10) acc'
  end.

Definition decimal (n : nat) : string := decimal_aux (S n) (N.of_nat n) EmptyString.

(** ** The decoders ([trait AccountDecoder], [AltDecoder], [get_decoder]) *)

Record AccountDecoder := { decode : list byte -> result Value Error }.

Definition alt_decode (data : list byte) : result Value Error :=
  let? alt := map_err EInstruction (alt_deserialize data) in
  let addresses := map pubkey_to_string (addresses alt) in
  Ok (Object [("type"%string, JString "address_lookup_table");
              ("addresses"%string, Array (map JString addresses));
              ("num_addresses"%string, Number (Z.of_nat (length addresses)))]).

Definition AltDecoder : AccountDecoder := {| decode := alt_decode |}.

Definition get_decoder (parser : option string) : result (option AccountDecoder) Error :=
  match parser with
  | Some p => if String.eqb p "alt" then Ok (Some AltDecoder) else Err (EUnknownParser p)
  | None => Ok None
  end.

(** ** [parse_filter] *)

Definition parse_filter (filter : string) : result RpcFilterType Error :=
  match split ":" filter with
  | [p0; data_str] =>
      let? offset := map_err EParseInt (parse_u64 p0) in
      let? bytes :=
        if starts_with "0x" data_str
        then map_err EFromHex (Hex.decode (drop 2 data_str))
        else map_err EParsePubkey (pubkey_from_str data_str) in
      Ok (MemcmpFilter (Memcmp_new offset (Bytes bytes)))
  | _ => Err EFilterSyntax
  end.

(** [.collect::<Result<Vec<_>>>()]: the first error wins. *)
Fixpoint collect {A E} (l : list (result A E)) : result (list A) E :=
  match l with
  | [] => Ok []
  | r :: rest => let? a := r in let? tl := collect rest in Ok (a :: tl)
  end.

(** The data slice argument [offset:size]. *)
Definition parse_data_slice (data : option string) : result (option UiDataSliceConfig) Error :=
  match data with
  | None => Ok None
  | Some range =>
      match split ":" range with
      | [p0; p1] =>
          let? offset := map_err EParseInt (parse_u64 p0) in
          let? length := map_err EParseInt (parse_u64 p1) in
          Ok (Some {| slice_offset := offset; slice_length := length |})
      | _ => Err EDataRange
      end
  end.

(** ** The argument model: [#[derive(Parser)] struct Cli] *)

(** The command line after the executable name, tokenised: positionals and
    options with their values ([-t alt], [--parser=alt] and [-talt] all
    give [Opt OParser "alt"]). *)
Inductive OptName := OUrl | OParser | OData | OFilter | OSize | OOutput.

Definition OptName_eqb (a b : OptName) : bool :=
  match a, b with
  | OUrl, OUrl | OParser, OParser | OData, OData
  | OFilter, OFilter | OSize, OSize | OOutput, OOutput => true
  | _, _ => false
  end.

Inductive Arg := Pos (s : string) | Opt (o : OptName) (v : string).

Inductive ClapErrorKind :=
| InvalidSubcommand
| MissingSubcommand
| MissingRequiredArgument
| UnknownArgument
| ArgumentConflict
| ValueValidation.

(** [Commands::Accs]. *)
Record Accs := {
  program : string;
  url : string;
  parser : option string;
  data : option string;
  filter : list string;
  size : option N;
  output : option string;
}.

Definition opt_values (o : OptName) (args : list Arg) : list string :=
  flat_map (fun a => match a with
                     | Opt o' v => if OptName_eqb o o' then [v] else []
                     | Pos _ => []
                     end) args.

Definition positionals (args : list Arg) : list string :=
  flat_map (fun a => match a with Pos s => [s] | Opt _ _ => [] end) args.

(** An [Option<T>] field takes one occurrence at most. *)
Definition single (o : OptName) (args : list Arg) : result (option string) ClapErrorKind :=
  match opt_values o args with
  | [] => Ok None
  | [v] => Ok (Some v)
  | _ => Err ArgumentConflict
  end.

Definition default_url : string := "https://solana-rpc.publicnode.com".

(** The fields of [Commands::Accs] with their [#[arg]] attributes:
    [env = "RPC_NODE"] and a default for [url], [conflicts_with] between
    [parser] and [data], a [u64] value parser for [size], and a [Vec]
    collecting every [--filter] in order. *)
Definition parse_accs (args : list Arg) (rpc_node_env : option string)
    : result Accs ClapErrorKind :=
  let? url_arg := single OUrl args in
  let? parser := single OParser args in
  let? data := single OData args in
  let? size_arg := single OSize args in
  let? output := single OOutput args in
  match parser, data with
  | Some _, Some _ => Err ArgumentConflict
  | _, _ =>
      let? size :=
        match size_arg with
        | None => Ok None
        | Some s => match parse_u64 s with Ok n => Ok (Some n) | Err _ => Err ValueValidation end
        end in
      let u := match url_arg, rpc_node_env with
               | Some u, _ => u
               | None, Some e => e
               | None, None => default_url
               end in
      match positionals args with
      | [program] =>
          Ok {| program := program; url := u; parser := parser; data := data;
                filter := opt_values OFilter args; size := size; output := output |}
      | [] => Err MissingRequiredArgument
      | _ => Err UnknownArgument
      end
  end.

(** [Cli::parse()]: the only subcommand is [accs]. *)
Definition cli_parse (argv : list Arg) (rpc_node_env : option string)
    : result Accs ClapErrorKind :=
  match argv with
  | Pos sub :: rest => if String.eqb sub "accs" then parse_accs rest rpc_node_env
                       else Err InvalidSubcommand
  | Opt _ _ :: _ => Err UnknownArgument
  | [] => Err MissingSubcommand
  end.

(** ** Observable effects and the outside world *)

Inductive Event :=
| GetProgramAccounts (client : RpcClient) (program : Pubkey) (cfg : RpcProgramAccountsConfig)
| Stderr (line : string)
| Stdout (v : Value)
| WriteFile (path : string) (v : Value).

(** The RPC node's answer to a request, and the outcome of a file write
    ([Some msg] when it fails). *)
Record World := {
  rpc_reply : RpcClient -> Pubkey -> RpcProgramAccountsConfig ->
              result (list (Pubkey * UiAccount)) string;
  fs_write : string -> Value -> option string;
}.

(** A writer-and-error monad: the events emitted so far and the result of
    the [?]-chain. *)
Definition M (A : Type) : Type := (list Event * result A Error)%type.

Definition mret {A} (a : A) : M A := ([], Ok a).

Definition mbind {A B} (m : M A) (f : A -> M B) : M B :=
  let (w, r) := m in
  match r with
  | Err e => (w, Err e)
  | Ok a => let (w', r') := f a in (w ++ w', r')
  end.

Definition lift {A} (r : result A Error) : M A := ([], r).

Definition emit (e : Event) : M unit := ([e], Ok tt).

Notation "'let!' x := m 'in' k" := (mbind m (fun x => k))
  (at level 200, x name, m at level 100, k at level 200).

(** ** [main] *)

Section Main.

(** The zstd frame decoder used by [UiAccountData::decode] for
    [Base64Zstd] payloads; the program relies on nothing about it. *)
Variable zstd_decompress : list byte -> option (list byte).

Definition result_ok {A E} (r : result A E) : option A :=
  match r with Ok a => Some a | Err _ => None end.

(** [UiAccountData::decode]. *)
Definition ui_account_data_decode (d : UiAccountData) : option (list byte) :=
  match d with
  | Json _ => None
  | LegacyBinary blob => result_ok (Base58.decode blob)
  | BinaryData blob enc =>
      match enc with
      | Base58Enc => result_ok (Base58.decode blob)
      | Base64Enc => Base64.decode blob
      | Base64Zstd => obind (Base64.decode blob) zstd_decompress
      | Binary | JsonParsed => None
      end
  end.

Definition raw_view (data : list byte) : Value :=
  Object [("type"%string, JString "raw");
          ("hex"%string, JString (Hex.encode data));
          ("base64"%string, JString (Base64.encode data));
          ("size"%string, Number (Z.of_nat (length data)))].

Definition account_entry (pubkey : Pubkey) (acc : UiAccount) (data_value : Value) : Value :=
  Object [("pubkey"%string, JString (pubkey_to_string pubkey));
          ("lamports"%string, Number (Z.of_N (lamports acc)));
          ("owner"%string, JString (owner acc));
          ("data"%string, data_value)].

(** The body of the [for] loop up to [results.push]: [None] is [continue]. *)
Definition account_data_value (decoder : option AccountDecoder)
    (pubkey : Pubkey) (acc : UiAccount) : M (option Value) :=
  match decoder with
  | Some dec =>
      match ui_account_data_decode (acc_data acc) with
      | None => mret None
      | Some bytes =>
          match decode dec bytes with
          | Ok decoded => mret (Some decoded)
          | Err e =>
              let! _ := emit (Stderr ("Failed to decode " ++ pubkey_to_string pubkey
                                      ++ ": " ++ display_error e)) in
              mret None
          end
      end
  | None =>
      match ui_account_data_decode (acc_data acc) with
      | None => mret None
      | Some bytes => mret (Some (raw_view bytes))
      end
  end.

(** [for (pubkey, acc) in accounts { ... }] with [results] and [processed]. *)
Fixpoint process_accounts (decoder : option AccountDecoder)
    (accounts : list (Pubkey * UiAccount)) (results : list Value) (processed : nat)
    : M (list Value * nat) :=
  match accounts with
  | [] => mret (results, processed)
  | (pubkey, acc) :: rest =>
      let! dv := account_data_value decoder pubkey acc in
      match dv with
      | None => process_accounts decoder rest results processed
      | Some data_value =>
          process_accounts decoder rest
            (results ++ [account_entry pubkey acc data_value]) (S processed)
      end
  end.

Definition size_filter (size : option N) : list RpcFilterType :=
  match size with Some size_val => [DataSize size_val] | None => [] end.

Definition program_accounts_config (data_slice : option UiDataSliceConfig)
    (rpc_filters : list RpcFilterType) : RpcProgramAccountsConfig :=
  {| filters := match rpc_filters with [] => None | _ => Some rpc_filters end;
     account_config := {| encoding := Some Base64Zstd; data_slice := data_slice;
                          commitment := None; min_context_slot := None |};
     with_context := None;
     sort_results := None |}.

Definition report (program : string) (processed : nat) (results : list Value) : Value :=
  Object [("program"%string, JString program);
          ("count"%string, Number (Z.of_nat processed));
          ("accounts"%string, Array results)].

Definition run_accs (w : World) (cmd : Accs) : M unit :=
  let rpc := RpcClient_new_with_timeout_and_commitment (url cmd) (15 * 60) Processed in
  let! program_pubkey := lift (map_err EParsePubkey (pubkey_from_str (program cmd))) in
  let! data_slice := lift (parse_data_slice (data cmd)) in
  let! parsed := lift (collect (map parse_filter (filter cmd))) in
  let rpc_filters := parsed ++ size_filter (size cmd) in
  let cfg := program_accounts_config data_slice rpc_filters in
  let! accounts := (([GetProgramAccounts rpc program_pubkey cfg],
                      map_err EClient (rpc_reply w rpc program_pubkey cfg)) : M _) in
  let! _ := emit (Stderr ("Fetched " ++ decimal (length accounts) ++ " accounts")) in
  let! decoder := lift (get_decoder (parser cmd)) in
  let! rp := process_accounts decoder accounts [] O in
  let '(results, processed) := rp in
  let! _ := emit (Stderr ("Processed: " ++ decimal processed)) in
  let output_json := report (program cmd) processed results in
  match output cmd with
  | Some file =>
      let! _ := (([WriteFile file output_json],
                  match fs_write w file output_json with
                  | None => Ok tt
                  | Some msg => Err (EIo msg)
                  end) : M unit) in
      emit (Stderr ("Saved to " ++ file))
  | None => emit (Stdout output_json)
  end.

(** The process: clap exits with 2 on a parse error, a [main] returning
    [Err] prints it and exits with 1. *)
Definition main (argv : list Arg) (rpc_node_env : option string) (w : World)
    : list Event * Z :=
  match cli_parse argv rpc_node_env with
  | Err _ => ([Stderr "error: invalid arguments"], 2%Z)
  | Ok cmd =>
      let (evs, r) := run_accs w cmd in
      match r with
      | Ok _ => (evs, 0%Z)
      | Err e => (evs ++ [Stderr ("Error: " ++ display_error e)], 1%Z)
      end
  end.

End Main.

(** ** What the loop emits, account by account *)

Definition step_events (zstd : list byte -> option (list byte))
    (d : option AccountDecoder) (acc : Pubkey * UiAccount) : list Event :=
  fst (account_data_value zstd d (fst acc) (snd acc)).

Definition step_entries (zstd : list byte -> option (list byte))
    (d : option AccountDecoder) (acc : Pubkey * UiAccount) : list Value :=
  match snd (account_data_value zstd d (fst acc) (snd acc)) with
  | Ok (Some v) => [account_entry (fst acc) (snd acc) v]
  | _ => []
  end.

(** The entries the [alt] decoder keeps: accounts whose payload decodes and
    deserialises. *)
Definition alt_entries (zstd : list byte -> option (list byte))
    (accounts : list (Pubkey * UiAccount)) : list Value :=
  flat_map (fun '(pk, acc) =>
              match ui_account_data_decode zstd (acc_data acc) with
              | Some bytes =>
                  match alt_decode bytes with
                  | Ok v => [account_entry pk acc v]
                  | Err _ => []
                  end
              | None => []
              end) accounts.

Definition is_report_event (v : Value) (e : Event) : Prop :=
  e = Stdout v \/ exists f, e = WriteFile f v.

(** Events other than the report itself. *)
Definition quiet (e : Event) : Prop :=
  match e with
  | Stdout _ | WriteFile _ _ => False
  | GetProgramAccounts _ _ _ | Stderr _ => True
  end.


Definition is_output (e : Event) : bool :=
  match e with Stdout _ | WriteFile _ _ => true | _ => false end.

(** The diagnostics of the [for] loop read off its body: with a decoder,
    one [Failed to decode] line for each account whose payload decodes
    but which the decoder rejects; nothing else. *)
Definition decode_failures (zstd : list byte -> option (list byte))
    (d : option AccountDecoder) (accounts : list (Pubkey * UiAccount)) : list Event :=
  match d with
  | None => []
  | Some dec =>
      flat_map (fun '(pk, acc) =>
                  match ui_account_data_decode zstd (acc_data acc) with
                  | Some bytes =>
                      match decode dec bytes with
                      | Ok _ => []
                      | Err e => [Stderr ("Failed to decode " ++ pubkey_to_string pk
                                          ++ ": " ++ display_error e)]
                      end
                  | None => []
                  end) accounts
  end.

(** ** Concrete inputs *)

Definition no_zstd : list byte -> option (list byte) := fun _ => None.

Definition system_program : string := "11111111111111111111111111111111".

Definition sample_account (blob : string) : UiAccount :=
  {| lamports := 1; acc_data := BinaryData blob Base64Enc; owner := system_program;
     executable := false; rent_epoch := 0 |}.

Definition world_of (accounts : list (Pubkey * UiAccount)) : World :=
  {| rpc_reply := fun _ _ _ => Ok accounts; fs_write := fun _ _ => None |}.

(** A lookup table with one address ([0x07] repeated) and no authority. *)
Definition alt_sample : list byte :=
  [Byte.x01; Byte.x00; Byte.x00; Byte.x00] ++ repeat Byte.x00 52 ++ repeat Byte.x07 32.

Definition zero_key : Pubkey := repeat Byte.x00 32.

Definition one_key : Pubkey := repeat Byte.x00 31 ++ [Byte.x01].

(** [sol-acc accs 11111111111111111111111111111111]: one account holding
    the bytes [00 01 02]. *)
Definition raw_argv : list Arg := [Pos "accs"; Pos system_program].

Definition raw_world : World := world_of [(zero_key, sample_account "AAEC")].

Definition raw_cmd : Accs :=
  {| program := system_program; url := default_url; parser := None; data := None;
     filter := []; size := None; output := None |}.

Definition raw_report : Value :=
  report system_program 1
    [account_entry zero_key (sample_account "AAEC") (raw_view [Byte.x00; Byte.x01; Byte.x02])].

(** [sol-acc accs 11111111111111111111111111111111 -t alt]: a malformed
    table, then a valid one. *)
Definition alt_argv : list Arg := [Pos "accs"; Pos system_program; Opt OParser "alt"].

Definition alt_cmd : Accs :=
  {| program := system_program; url := default_url; parser := Some "alt"%string; data := None;
     filter := []; size := None; output := None |}.

Definition alt_accounts : list (Pubkey * UiAccount) :=
  [(zero_key, sample_account (Base64.encode [Byte.x01; Byte.x00]));
   (one_key, sample_account (Base64.encode alt_sample))].

(** [sol-acc accs 11111111111111111111111111111111 -f 10:0xdead
    -f 0:11111111111111111111111111111111 -s 3]. *)
Definition filter_argv : list Arg :=
  [Pos "accs"; Pos system_program; Opt OFilter "10:0xdead";
   Opt OFilter ("0:" ++ system_program); Opt OSize "3"].

Definition filter_client : RpcClient :=
  RpcClient_new_with_timeout_and_commitment default_url (15 * 60) Processed.

Definition filter_cfg : RpcProgramAccountsConfig :=
  program_accounts_config None
    [MemcmpFilter (Memcmp_new 10 (Bytes [Byte.xde; Byte.xad]));
     MemcmpFilter (Memcmp_new 0 (Bytes zero_key));
     DataSize 3].


Definition readonly_world (accounts : list (Pubkey * UiAccount)) : World :=
  {| rpc_reply := fun _ _ _ => Ok accounts;
     fs_write := fun _ _ => Some "Permission denied (os error 13)"%string |}.

Definition raw_out_argv : list Arg := raw_argv ++ [Opt OOutput "out.json"].

(** [sol-acc accs 11111111111111111111111111111111 -t foo]. *)
Definition foo_argv : list Arg := [Pos "accs"; Pos system_program; Opt OParser "foo"].

Definition foo_cmd : Accs :=
  {| program := system_program; url := default_url; parser := Some "foo"%string; data := None;
     filter := []; size := None; output := None |}.

Definition local_node : string := "http://127.0.0.1:8899".

Definition alt_sample_table : AddressLookupTable :=
  Eval vm_compute in
    match alt_deserialize alt_sample with
    | Ok t => t
    | Err _ => {| meta := {| deactivation_slot := 0; last_extended_slot := 0;
                             last_extended_slot_start_index := 0; authority := None |};
                  addresses := [] |}
    end.

Definition alt_sample_value : Value :=
  Eval vm_compute in match alt_decode alt_sample with Ok v => v | Err _ => Null end.

(** ** Tactics *)

Ltac byte_bounds :=
  unfold bval in *;
  repeat match goal with
  | b : ?T |- _ =>
      unify T Byte.byte;
      let H := fresh "Hb" in
      pose proof (Byte.to_N_bounded b) as H;
      revert H; generalize (Byte.to_N b); clear b; intros ? ?
  end.

Ltac euclid := zify; Z.to_euclidean_division_equations; nia.

Ltac find_in := repeat (solve [left; reflexivity] || right).

(** ** Codec lemmas *)

Lemma forall_below (f : N -> bool) (k : nat) :
  forallb (fun i => f (N.of_nat i)) (seq 0 k) = true ->
  forall n, n < N.of_nat k -> f n = true.
Proof.
  intros H n Hn. rewrite forallb_forall in H.
  specialize (H (N.to_nat n)). rewrite N2Nat.id in H. apply H.
  apply in_seq. lia.
Qed.

Lemma hex_val_index (c : ascii) (i j : nat) (m : N) :
  Hex.val c i = Ok m -> Hex.val c j = Ok m.
Proof.
  unfold Hex.val. destruct (_ && _); [auto|]. destruct (_ && _); [auto|].
  destruct (_ && _); [auto|]. discriminate.
Qed.

Lemma hex_val_digit (n : N) (i : nat) : n < 16 -> Hex.val (Hex.digit n) i = Ok n.
Proof.
  intros Hn. apply (hex_val_index _ O).
  pose proof (forall_below (fun n => match Hex.val (Hex.digit n) O with
                                      | Ok m => m =? n | Err _ => false end) 16
                eq_refl n Hn) as H.
  cbv beta in H. destruct (Hex.val (Hex.digit n) O); [|discriminate H].
  apply N.eqb_eq in H. now subst.
Qed.

Lemma hex_encode_length (d : list byte) : String.length (Hex.encode d) = (2 * length d)%nat.
Proof. induction d; simpl; lia. Qed.

Lemma hex_decode_pairs_encode (d : list byte) (i : nat) :
  Hex.decode_pairs (Hex.encode d) i = Ok d.
Proof.
  revert i. induction d as [|b d IH]; intros i; [reflexivity|].
  simpl. rewrite !hex_val_digit by (byte_bounds; euclid).
  simpl. rewrite IH. simpl.
  replace (bval b / 16 * 16 + bval b mod 16) with (bval b) by (byte_bounds; euclid).
  unfold bval. now rewrite Byte.of_to_N.
Qed.

Lemma hex_decode_encode (d : list byte) : Hex.decode (Hex.encode d) = Ok d.
Proof.
  unfold Hex.decode. rewrite hex_encode_length.
  replace (Nat.odd (2 * length d)) with false.
  - apply hex_decode_pairs_encode.
  - rewrite Nat.odd_mul. reflexivity.
Qed.

Lemma b64_idx_sym (n : N) : n < 64 -> Base64.idx (Base64.sym n) = Some n.
Proof.
  intros Hn.
  pose proof (forall_below (fun n => match Base64.idx (Base64.sym n) with
                                      | Some m => m =? n | None => false end) 64
                eq_refl n Hn) as H.
  cbv beta in H. destruct (Base64.idx (Base64.sym n)); [|discriminate H].
  apply N.eqb_eq in H. now subst.
Qed.

Lemma b64_sym_not_pad (n : N) : n < 64 -> Ascii.eqb (Base64.sym n) Base64.pad = false.
Proof.
  intros Hn.
  pose proof (forall_below (fun n => negb (Ascii.eqb (Base64.sym n) Base64.pad)) 64
                eq_refl n Hn) as H.
  cbv beta in H. now destruct (Ascii.eqb (Base64.sym n) Base64.pad).
Qed.

Lemma list_ind3 {A} (P : list A -> Prop) :
  P [] -> (forall a, P [a]) -> (forall a b, P [a; b]) ->
  (forall a b c l, P l -> P (a :: b :: c :: l)) -> forall l, P l.
Proof.
  intros H0 H1 H2 H3. fix IH 1. intros [|a [|b [|c l]]].
  - exact H0.
  - apply H1.
  - apply H2.
  - apply H3, IH.
Qed.

Ltac b64_step :=
  cbn [obind];
  first
    [ rewrite b64_idx_sym by (byte_bounds; euclid)
    | rewrite b64_sym_not_pad by (byte_bounds; euclid) ].

Lemma of_N_eq (n : N) (b : byte) : n = bval b -> Base64.byte_of n = Some b.
Proof. intros ->. apply Byte.of_to_N. Qed.

Lemma b64_decode_encode (d : list byte) : Base64.decode (Base64.encode d) = Some d.
Proof.
  induction d as [|a|a b|a b c l IH] using list_ind3.
  - reflexivity.
  - cbn [Base64.encode Base64.decode]. repeat b64_step.
    cbn -[Base64.byte_of N.div N.modulo N.mul N.add].
    replace (bval a mod 4 * 16 mod 16 =? 0) with true
      by (symmetry; apply N.eqb_eq; byte_bounds; euclid).
    rewrite (of_N_eq _ a) by (byte_bounds; euclid). reflexivity.
  - cbn [Base64.encode Base64.decode]. repeat b64_step.
    cbn -[Base64.byte_of Base64.idx Base64.sym N.div N.modulo N.mul N.add].
    replace (bval b mod 16 * 4 mod 4 =? 0) with true
      by (symmetry; apply N.eqb_eq; byte_bounds; euclid).
    rewrite (of_N_eq _ a) by (byte_bounds; euclid). cbn [obind].
    rewrite (of_N_eq _ b) by (byte_bounds; euclid). reflexivity.
  - cbn [Base64.encode Base64.decode]. repeat b64_step.
    rewrite IH.
    rewrite (of_N_eq _ a), (of_N_eq _ b), (of_N_eq _ c) by (byte_bounds; euclid).
    destruct (Base64.encode l); reflexivity.
Qed.

(** ** The loop *)

Lemma account_data_value_never_fails zstd d pk acc :
  exists o, snd (account_data_value zstd d pk acc) = Ok o.
Proof.
  unfold account_data_value.
  destruct d as [dec|]; destruct (ui_account_data_decode zstd (acc_data acc)) as [bytes|];
    simpl; eauto.
  destruct (decode dec bytes); simpl; eauto.
Qed.

Lemma process_accounts_spec zstd d accounts results processed :
  process_accounts zstd d accounts results processed =
  (flat_map (step_events zstd d) accounts,
   Ok (results ++ flat_map (step_entries zstd d) accounts,
       (processed + length (flat_map (step_entries zstd d) accounts))%nat)).
Proof.
  revert results processed.
  induction accounts as [|[pk acc] rest IH]; intros results processed.
  - simpl. rewrite app_nil_r, Nat.add_0_r. reflexivity.
  - cbn [process_accounts flat_map]. unfold mbind.
    destruct (account_data_value_never_fails zstd d pk acc) as [o Ho].
    destruct (account_data_value zstd d pk acc) as [w r] eqn:E. simpl in Ho. subst r.
    assert (Hs : step_events zstd d (pk, acc) = w)
      by (unfold step_events; simpl; now rewrite E).
    assert (He : step_entries zstd d (pk, acc) =
                 match o with Some v => [account_entry pk acc v] | None => [] end)
      by (unfold step_entries; simpl; now rewrite E).
    rewrite Hs, He.
    destruct o as [v|]; rewrite IH; simpl.
    + rewrite <- app_assoc. simpl. repeat f_equal. lia.
    + reflexivity.
Qed.

Lemma step_events_stderr zstd d acc e :
  In e (step_events zstd d acc) -> exists s, e = Stderr s.
Proof.
  unfold step_events, account_data_value.
  destruct d as [dec|]; destruct (ui_account_data_decode zstd (acc_data (snd acc)));
    simpl; try tauto.
  destruct (decode dec l); simpl; [tauto|]. intros [<-|[]]. eauto.
Qed.

(** ** [main], flattened *)

Lemma run_accs_eq zstd w cmd :
  run_accs zstd w cmd =
  let rpc := RpcClient_new_with_timeout_and_commitment (url cmd) (15 * 60) Processed in
  match pubkey_from_str (program cmd) with
  | Err e => ([], Err (EParsePubkey e))
  | Ok pk =>
  match parse_data_slice (data cmd) with
  | Err e => ([], Err e)
  | Ok slice =>
  match collect (map parse_filter (filter cmd)) with
  | Err e => ([], Err e)
  | Ok parsed =>
  let cfg := program_accounts_config slice (parsed ++ size_filter (size cmd)) in
  match rpc_reply w rpc pk cfg with
  | Err m => ([GetProgramAccounts rpc pk cfg], Err (EClient m))
  | Ok accounts =>
  let fetched := [GetProgramAccounts rpc pk cfg;
                  Stderr ("Fetched " ++ decimal (length accounts) ++ " accounts")] in
  match get_decoder (parser cmd) with
  | Err e => (fetched, Err e)
  | Ok dec =>
  let results := flat_map (step_entries zstd dec) accounts in
  let logged := fetched ++ flat_map (step_events zstd dec) accounts
                ++ [Stderr ("Processed: " ++ decimal (length results))] in
  let v := report (program cmd) (length results) results in
  match output cmd with
  | Some f =>
      match fs_write w f v with
      | None => (logged ++ [WriteFile f v; Stderr ("Saved to " ++ f)], Ok tt)
      | Some m => (logged ++ [WriteFile f v], Err (EIo m))
      end
  | None => (logged ++ [Stdout v], Ok tt)
  end end end end end end.
Proof.
  unfold run_accs, mbind, lift, emit, mret. cbv zeta.
  destruct (pubkey_from_str (program cmd)) as [pk|e]; simpl; [|reflexivity].
  destruct (parse_data_slice (data cmd)) as [slice|e]; simpl; [|reflexivity].
  destruct (collect (map parse_filter (filter cmd))) as [parsed|e]; simpl; [|reflexivity].
  destruct (rpc_reply _ _ _ _) as [accounts|m]; simpl; [|reflexivity].
  destruct (get_decoder (parser cmd)) as [dec|e]; simpl; [|reflexivity].
  rewrite process_accounts_spec. simpl.
  destruct (output cmd) as [f|]; simpl.
  - destruct (fs_write w f _); simpl; rewrite <- !app_assoc; reflexivity.
  - rewrite <- !app_assoc; reflexivity.
Qed.

Lemma report_not_quiet v e : is_report_event v e -> quiet e -> False.
Proof. intros [->|[f ->]]; simpl; tauto. Qed.

Lemma step_events_quiet zstd d accounts e :
  In e (flat_map (step_events zstd d) accounts) -> quiet e.
Proof.
  rewrite in_flat_map. intros [acc [_ Hin]].
  destruct (step_events_stderr _ _ _ _ Hin) as [s ->]. exact I.
Qed.

Ltac report_cases :=
  repeat (rewrite in_app_iff in * || simpl in *);
  repeat match goal with
  | H : _ \/ _ |- _ => destruct H
  | H : False |- _ => destruct H
  | H : ?x = ?e, R : is_report_event _ ?e |- _ =>
      subst e; solve [exfalso; eapply report_not_quiet; [exact R | exact I]] || clear H
  | H : In ?e (flat_map _ _), R : is_report_event _ ?e |- _ =>
      exfalso; eapply report_not_quiet; [exact R | eapply step_events_quiet; exact H]
  end.

Lemma main_report zstd argv env w evs code e v :
  main zstd argv env w = (evs, code) -> In e evs -> is_report_event v e ->
  exists cmd pk slice parsed accounts dec,
    cli_parse argv env = Ok cmd /\
    pubkey_from_str (program cmd) = Ok pk /\
    parse_data_slice (data cmd) = Ok slice /\
    collect (map parse_filter (filter cmd)) = Ok parsed /\
    rpc_reply w (RpcClient_new_with_timeout_and_commitment (url cmd) (15 * 60) Processed) pk
      (program_accounts_config slice (parsed ++ size_filter (size cmd))) = Ok accounts /\
    get_decoder (parser cmd) = Ok dec /\
    v = report (program cmd) (length (flat_map (step_entries zstd dec) accounts))
               (flat_map (step_entries zstd dec) accounts).
Proof.
  unfold main. intros Hm Hin R.
  destruct (cli_parse argv env) as [cmd|ce] eqn:Hc;
    [|injection Hm as <- _; report_cases].
  rewrite run_accs_eq in Hm. cbv zeta in Hm.
  destruct (pubkey_from_str (program cmd)) as [pk|pe] eqn:Hp;
    [|injection Hm as <- _; report_cases].
  destruct (parse_data_slice (data cmd)) as [slice|se] eqn:Hs;
    [|injection Hm as <- _; report_cases].
  destruct (collect (map parse_filter (filter cmd))) as [parsed|fe] eqn:Hf;
    [|injection Hm as <- _; report_cases].
  destruct (rpc_reply _ _ _ _) as [accounts|m] eqn:Hr;
    [|injection Hm as <- _; report_cases].
  destruct (get_decoder (parser cmd)) as [dec|de] eqn:Hd;
    [|injection Hm as <- _; report_cases].
  exists cmd, pk, slice, parsed, accounts, dec.
  do 6 (split; [reflexivity || assumption|]).
  destruct (output cmd) as [f|];
    [destruct (fs_write w f _)|]; injection Hm as <- _; report_cases;
    destruct R as [R|[f' R]]; congruence.
Qed.

Lemma step_entries_raw zstd (acc : Pubkey * UiAccount) :
  step_entries zstd None acc =
  match ui_account_data_decode zstd (acc_data (snd acc)) with
  | Some bytes => [account_entry (fst acc) (snd acc) (raw_view bytes)]
  | None => []
  end.
Proof.
  unfold step_entries, account_data_value.
  destruct (ui_account_data_decode zstd (acc_data (snd acc))); reflexivity.
Qed.

Lemma raw_entries_shape zstd accounts :
  Forall (fun entry => exists pk acc bytes,
             ui_account_data_decode zstd (acc_data acc) = Some bytes /\
             entry = account_entry pk acc (raw_view bytes))
         (flat_map (step_entries zstd None) accounts).
Proof.
  induction accounts as [|[pk acc] rest IH]; simpl; [constructor|].
  apply Forall_app. split; [|exact IH].
  rewrite step_entries_raw. simpl.
  destruct (ui_account_data_decode zstd (acc_data acc)) eqn:E; constructor; eauto.
Qed.

(** ** Claims *)

(** C3: whenever a run emits its report (to standard output or to the
    [--output] file), the report's [count] field equals the length of its
    [accounts] array. *)
Theorem C3_count_is_length zstd argv env w evs code e v :
  main zstd argv env w = (evs, code) -> In e evs -> is_report_event v e ->
  exists prog results,
    v = Object [("program"%string, JString prog);
                ("count"%string, Number (Z.of_nat (length results)));
                ("accounts"%string, Array results)].
Proof.
  intros Hm Hin R.
  destruct (main_report zstd argv env w evs code e v Hm Hin R)
    as (cmd & pk & slice & parsed & accounts & dec & _ & _ & _ & _ & _ & _ & ->).
  eexists _, _. reflexivity.
Qed.

(** C5: without [--parser], every entry of the emitted report has as [data]
    the raw view of its account's payload bytes:
    [{type: "raw", hex: <lowercase hex>, base64: <standard base64>, size:
    <byte length>}]; for the payload [00 01 02] this is
    [{"type":"raw","hex":"000102","base64":"AAEC","size":3}]. *)
Theorem C5_raw_view zstd argv env w evs code e v cmd :
  cli_parse argv env = Ok cmd -> parser cmd = None ->
  main zstd argv env w = (evs, code) -> In e evs -> is_report_event v e ->
  (exists results,
      v = report (program cmd) (length results) results /\
      Forall (fun entry => exists pk acc bytes,
                 ui_account_data_decode zstd (acc_data acc) = Some bytes /\
                 entry = account_entry pk acc
                           (Object [("type"%string, JString "raw");
                                    ("hex"%string, JString (Hex.encode bytes));
                                    ("base64"%string, JString (Base64.encode bytes));
                                    ("size"%string, Number (Z.of_nat (length bytes)))]))
             results) /\
  raw_view [Byte.x00; Byte.x01; Byte.x02] =
    Object [("type"%string, JString "raw"); ("hex"%string, JString "000102");
            ("base64"%string, JString "AAEC"); ("size"%string, Number 3)].
Proof.
  intros Hc Hp Hm Hin R. split; [|reflexivity].
  destruct (main_report zstd argv env w evs code e v Hm Hin R)
    as (cmd' & pk & slice & parsed & accounts & dec & Hc' & _ & _ & _ & _ & Hd & ->).
  rewrite Hc in Hc'. injection Hc' as <-.
  rewrite Hp in Hd. injection Hd as <-.
  eexists. split; [reflexivity|]. apply raw_entries_shape.
Qed.

(** C6: without [--parser], the [hex] and [base64] fields of every emitted
    raw entry decode (as hexadecimal and as standard base64) to the same
    bytes, whose number is the [size] field and half the [hex] length. *)
Theorem C6_hex_base64_agree zstd argv env w evs code e v cmd :
  cli_parse argv env = Ok cmd -> parser cmd = None ->
  main zstd argv env w = (evs, code) -> In e evs -> is_report_event v e ->
  exists results,
    v = report (program cmd) (length results) results /\
    Forall (fun entry => exists pk acc h b sz,
               entry = account_entry pk acc
                         (Object [("type"%string, JString "raw"); ("hex"%string, JString h);
                                  ("base64"%string, JString b); ("size"%string, Number sz)]) /\
               exists bytes,
                 Hex.decode h = Ok bytes /\ Base64.decode b = Some bytes /\
                 sz = Z.of_nat (length bytes) /\ String.length h = (2 * length bytes)%nat)
           results.
Proof.
  intros Hc Hp Hm Hin R.
  destruct (main_report zstd argv env w evs code e v Hm Hin R)
    as (cmd' & pk & slice & parsed & accounts & dec & Hc' & _ & _ & _ & _ & Hd & ->).
  rewrite Hc in Hc'. injection Hc' as <-.
  rewrite Hp in Hd. injection Hd as <-.
  eexists. split; [reflexivity|].
  eapply Forall_impl; [|apply raw_entries_shape].
  intros entry (pk' & acc & bytes & _ & ->).
  exists pk', acc, (Hex.encode bytes), (Base64.encode bytes), (Z.of_nat (length bytes)).
  split; [reflexivity|]. exists bytes.
  split; [apply hex_decode_encode|]. split; [apply b64_decode_encode|].
  split; [reflexivity|apply hex_encode_length].
Qed.

Lemma alt_step_entries zstd accounts :
  flat_map (step_entries zstd (Some AltDecoder)) accounts = alt_entries zstd accounts.
Proof.
  induction accounts as [|[pk acc] rest IH]; [reflexivity|].
  simpl. rewrite IH. f_equal.
  unfold step_entries, account_data_value. simpl.
  destruct (ui_account_data_decode zstd (acc_data acc)) as [bytes|]; [|reflexivity].
  destruct (alt_decode bytes); reflexivity.
Qed.

Lemma alt_step_events_failure zstd pk acc bytes err :
  ui_account_data_decode zstd (acc_data acc) = Some bytes -> alt_decode bytes = Err err ->
  In (Stderr ("Failed to decode " ++ pubkey_to_string pk ++ ": " ++ display_error err))
     (step_events zstd (Some AltDecoder) (pk, acc)).
Proof.
  intros Hd Ha. unfold step_events, account_data_value. simpl.
  rewrite Hd. simpl. rewrite Ha. simpl. now left.
Qed.

(** C1: with [--parser alt], once the configuration is valid and the RPC
    answers, the run exits with 0 whatever the payloads are; every account
    whose payload the [alt] decoder rejects gets the diagnostic
    [Failed to decode <pubkey>: <error>] and no entry, and the report lists
    exactly the other accounts that decode, in order. *)
Theorem C1_decode_failures_isolated zstd argv env w cmd pk slice parsed accounts :
  cli_parse argv env = Ok cmd -> parser cmd = Some "alt"%string ->
  pubkey_from_str (program cmd) = Ok pk ->
  parse_data_slice (data cmd) = Ok slice ->
  collect (map parse_filter (filter cmd)) = Ok parsed ->
  rpc_reply w (RpcClient_new_with_timeout_and_commitment (url cmd) (15 * 60) Processed) pk
    (program_accounts_config slice (parsed ++ size_filter (size cmd))) = Ok accounts ->
  (forall f v, output cmd = Some f -> fs_write w f v = None) ->
  exists evs e v,
    main zstd argv env w = (evs, 0%Z) /\
    In e evs /\ is_report_event v e /\
    v = report (program cmd) (length (alt_entries zstd accounts)) (alt_entries zstd accounts) /\
    (forall pk' acc bytes err,
        In (pk', acc) accounts ->
        ui_account_data_decode zstd (acc_data acc) = Some bytes ->
        alt_decode bytes = Err err ->
        In (Stderr ("Failed to decode " ++ pubkey_to_string pk' ++ ": " ++ display_error err))
           evs).
Proof.
  intros Hc Hpar Hp Hs Hf Hr Hw.
  assert (Hfail : forall pk' acc bytes err,
             In (pk', acc) accounts ->
             ui_account_data_decode zstd (acc_data acc) = Some bytes ->
             alt_decode bytes = Err err ->
             In (Stderr ("Failed to decode " ++ pubkey_to_string pk' ++ ": " ++ display_error err))
                (flat_map (step_events zstd (Some AltDecoder)) accounts)).
  { intros pk' acc bytes err Hin Hd Ha. apply in_flat_map.
    exists (pk', acc). split; [exact Hin|]. now apply (alt_step_events_failure zstd pk' acc bytes err). }
  unfold main. rewrite Hc, run_accs_eq. cbv zeta.
  rewrite Hp, Hs, Hf, Hr, Hpar. simpl get_decoder.
  cbv beta iota. rewrite alt_step_entries.
  destruct (output cmd) as [f|] eqn:Ho.
  - rewrite (Hw f _ eq_refl).
    eexists _, (WriteFile f _), _. split; [reflexivity|].
    split; [apply in_or_app; right; left; reflexivity|].
    split; [right; eexists; reflexivity|]. split; [reflexivity|].
    intros. apply in_or_app. left. apply in_or_app. right.
    apply in_or_app. left. eauto.
  - eexists _, (Stdout _), _. split; [reflexivity|].
    split; [apply in_or_app; right; left; reflexivity|].
    split; [left; reflexivity|]. split; [reflexivity|].
    intros. apply in_or_app. left. apply in_or_app. right.
    apply in_or_app. left. eauto.
Qed.

(** ** The argument model *)

Lemma opt_values_in o v args : In (Opt o v) args -> In v (opt_values o args).
Proof.
  intros H. unfold opt_values. apply in_flat_map. exists (Opt o v). split; [exact H|].
  simpl. destruct o; simpl; now left.
Qed.

Lemma single_present o v args x :
  In (Opt o v) args -> single o args = Ok x -> x <> None.
Proof.
  intros Hin Hs. apply opt_values_in in Hin. unfold single in Hs.
  destruct (opt_values o args) as [|a [|b l]]; [destruct Hin| |discriminate].
  injection Hs as <-. discriminate.
Qed.

Lemma parse_accs_conflict args env pv dv :
  In (Opt OParser pv) args -> In (Opt OData dv) args ->
  exists err, parse_accs args env = Err err.
Proof.
  intros Hp Hd. unfold parse_accs.
  destruct (single OUrl args) as [u|ce]; simpl; [|eauto].
  destruct (single OParser args) as [p|ce] eqn:E1; simpl; [|eauto].
  destruct (single OData args) as [d|ce] eqn:E2; simpl; [|eauto].
  destruct (single OSize args) as [s|ce]; simpl; [|eauto].
  destruct (single OOutput args) as [o|ce]; simpl; [|eauto].
  pose proof (single_present _ _ _ _ Hp E1). pose proof (single_present _ _ _ _ Hd E2).
  destruct p; [|congruence]. destruct d; [|congruence]. eauto.
Qed.

Lemma cli_parse_conflict argv env pv dv :
  In (Opt OParser pv) argv -> In (Opt OData dv) argv ->
  exists err, cli_parse argv env = Err err.
Proof.
  intros Hp Hd. destruct argv as [|[s|o v] rest]; simpl; [destruct Hp| |eauto].
  destruct (String.eqb s "accs"); [|eauto].
  destruct Hp as [Hp|Hp]; [discriminate|]. destruct Hd as [Hd|Hd]; [discriminate|].
  eapply parse_accs_conflict; eauto.
Qed.

Lemma parse_accs_filter args env cmd :
  parse_accs args env = Ok cmd -> filter cmd = opt_values OFilter args.
Proof.
  unfold parse_accs.
  destruct (single OUrl args); simpl; [|discriminate].
  destruct (single OParser args) as [p|]; simpl; [|discriminate].
  destruct (single OData args) as [d|]; simpl; [|discriminate].
  destruct (single OSize args) as [s|]; simpl; [|discriminate].
  destruct (single OOutput args); simpl; [|discriminate].
  destruct p, d; try discriminate;
    (destruct s as [s|]; [destruct (parse_u64 s)|]); simpl; try discriminate;
    (destruct (positionals args) as [|? [|? ?]]; try discriminate);
    intros H; injection H as <-; reflexivity.
Qed.

Lemma cli_parse_filter argv env cmd :
  cli_parse argv env = Ok cmd ->
  exists rest, argv = Pos "accs" :: rest /\ filter cmd = opt_values OFilter rest.
Proof.
  destruct argv as [|[s|o v] rest]; simpl; try discriminate.
  destruct (String.eqb s "accs") eqn:E; [|discriminate].
  apply String.eqb_eq in E. subst s. intros H. exists rest. split; [reflexivity|].
  eapply parse_accs_filter; eauto.
Qed.

Lemma collect_map_forall2 {A B E} (f : A -> result B E) l c :
  collect (map f l) = Ok c -> Forall2 (fun x y => f x = Ok y) l c.
Proof.
  revert c. induction l as [|x l IH]; simpl; intros c H.
  - injection H as <-. constructor.
  - destruct (f x) as [y|e] eqn:Hx; simpl in H; [|discriminate].
    destruct (collect (map f l)) as [tl|e]; simpl in H; [|discriminate].
    injection H as <-. constructor; auto.
Qed.

Lemma run_accs_request zstd w cmd c pk cfg :
  In (GetProgramAccounts c pk cfg) (fst (run_accs zstd w cmd)) ->
  exists slice parsed,
    collect (map parse_filter (filter cmd)) = Ok parsed /\
    cfg = program_accounts_config slice (parsed ++ size_filter (size cmd)).
Proof.
  rewrite run_accs_eq. cbv zeta.
  assert (Hq : forall d accounts,
             ~ In (GetProgramAccounts c pk cfg) (flat_map (step_events zstd d) accounts)).
  { intros d accounts H. apply in_flat_map in H. destruct H as [acc [_ H]].
    destruct (step_events_stderr _ _ _ _ H). discriminate. }
  destruct (pubkey_from_str (program cmd)); simpl; [|tauto].
  destruct (parse_data_slice (data cmd)) as [slice|]; simpl; [|tauto].
  destruct (collect (map parse_filter (filter cmd))) as [parsed|]; simpl; [|tauto].
  destruct (rpc_reply _ _ _ _).
  2:{ simpl. intros [H|[]]. injection H as _ _ <-. eauto. }
  destruct (get_decoder (parser cmd)) as [dec|].
  2:{ simpl. intros [H|[H|[]]]; [injection H as _ _ <-; eauto|discriminate]. }
  destruct (output cmd) as [f|]; [destruct (fs_write w f _)|]; simpl;
    intros H; repeat rewrite in_app_iff in H; simpl in H;
    repeat match goal with
    | H : _ \/ _ |- _ => destruct H as [H|H]
    | H : False |- _ => destruct H
    | H : GetProgramAccounts _ _ _ = GetProgramAccounts _ _ _ |- _ =>
        injection H as _ _ <-; eauto
    | H : In _ (flat_map _ _) |- _ => destruct (Hq _ _ H)
    | H : _ = _ |- _ => discriminate H
    end.
Qed.

(** C4: a command line carrying both [--parser] and [--data] exits with a
    non-zero code and issues no RPC request. *)
Theorem C4_parser_data_rejected zstd argv env w pv dv :
  In (Opt OParser pv) argv -> In (Opt OData dv) argv ->
  snd (main zstd argv env w) <> 0%Z /\
  forall c pk cfg, ~ In (GetProgramAccounts c pk cfg) (fst (main zstd argv env w)).
Proof.
  intros Hp Hd. destruct (cli_parse_conflict argv env pv dv Hp Hd) as [err Herr].
  unfold main. rewrite Herr. simpl. split; [discriminate|].
  intros c pk cfg [H|[]]. discriminate.
Qed.

(** C7: the request the program sends carries the compiled [--filter]
    arguments in the order they were given, then the [--size] filter if
    any; with neither, the [filters] field is absent. *)
Theorem C7_filter_order zstd argv env w evs code c pk cfg :
  main zstd argv env w = (evs, code) -> In (GetProgramAccounts c pk cfg) evs ->
  exists rest cmd compiled,
    argv = Pos "accs" :: rest /\ cli_parse argv env = Ok cmd /\
    filter cmd = opt_values OFilter rest /\
    Forall2 (fun f r => parse_filter f = Ok r) (filter cmd) compiled /\
    filters cfg = match compiled ++ size_filter (size cmd) with
                  | [] => None
                  | l => Some l
                  end /\
    (filter cmd = [] -> size cmd = None -> filters cfg = None).
Proof.
  unfold main. intros Hm Hin.
  destruct (cli_parse argv env) as [cmd|ce] eqn:Hc.
  2:{ injection Hm as <- _. destruct Hin as [H|[]]. discriminate. }
  assert (Hr : In (GetProgramAccounts c pk cfg) (fst (run_accs zstd w cmd))).
  { destruct (run_accs zstd w cmd) as [evs' r]. simpl.
    destruct r; injection Hm as <- _; [exact Hin|].
    apply in_app_iff in Hin. destruct Hin as [H|[H|[]]]; [exact H|discriminate]. }
  destruct (run_accs_request zstd w cmd c pk cfg Hr) as (slice & parsed & Hf & ->).
  destruct (cli_parse_filter argv env cmd Hc) as (rest & Ha & Hfl).
  exists rest, cmd, parsed.
  split; [exact Ha|]. split; [reflexivity|]. split; [exact Hfl|].
  split; [apply collect_map_forall2; exact Hf|].
  split; [simpl; destruct (parsed ++ size_filter (size cmd)); reflexivity|].
  intros He Hs. rewrite He in Hf. simpl in Hf. injection Hf as <-.
  rewrite Hs. reflexivity.
Qed.

(** C2: with [--parser foo], a valid program id and an RPC node answering
    with no account, the program first sends the [getProgramAccounts]
    request and only then fails on the unknown parser (exit code 1). *)
Theorem C2_unknown_parser_after_rpc :
  let r := main no_zstd [Pos "accs"; Pos system_program; Opt OParser "foo"] None (world_of []) in
  snd r = 1%Z /\
  (exists c pk cfg, In (GetProgramAccounts c pk cfg) (fst r)) /\
  In (Stderr "Error: Unknown parser: foo") (fst r).
Proof.
  vm_compute. split; [reflexivity|]. split.
  - eexists _, _, _. left. reflexivity.
  - right. right. left. reflexivity.
Qed.

(** ** The filter compiler *)

Lemma hex_decode_pairs_length (n : nat) :
  forall h i bs, (String.length h <= n)%nat -> Hex.decode_pairs h i = Ok bs ->
  String.length h = (2 * length bs)%nat.
Proof.
  induction n as [|n IH]; intros h i bs Hn H.
  - destruct h; simpl in *; [injection H as <-; reflexivity|lia].
  - destruct h as [|c1 [|c2 rest]]; simpl in H.
    + injection H as <-. reflexivity.
    + discriminate.
    + destruct (Hex.val c1 i); simpl in H; [|discriminate].
      destruct (Hex.val c2 (S i)); simpl in H; [|discriminate].
      destruct (Hex.decode_pairs rest (S (S i))) as [tl|] eqn:E; simpl in H; [|discriminate].
      destruct (Byte.of_N _); [|discriminate]. injection H as <-.
      simpl in Hn |- *. rewrite (IH rest (S (S i)) tl) by (auto; lia). simpl. lia.
Qed.

Lemma hex_decode_length h bs : Hex.decode h = Ok bs -> String.length h = (2 * length bs)%nat.
Proof.
  unfold Hex.decode. destruct (Nat.odd _); [discriminate|].
  apply (hex_decode_pairs_length (String.length h)). lia.
Qed.

Lemma drop_length k s : String.length (drop k s) = (String.length s - k)%nat.
Proof.
  revert s. induction k as [|k IH]; intros s; simpl; [lia|].
  destruct s; simpl; [reflexivity|]. apply IH.
Qed.

Lemma pubkey_from_str_length s pk : pubkey_from_str s = Ok pk -> length pk = 32%nat.
Proof.
  unfold pubkey_from_str. destruct (Nat.ltb _ _); [discriminate|].
  destruct (Base58.decode s) as [bytes|]; [|discriminate].
  destruct (Nat.ltb _ _); [discriminate|].
  destruct (Nat.eqb (length bytes) PUBKEY_BYTES) eqn:E; [|discriminate].
  intros H. injection H as <-. apply Nat.eqb_eq in E. exact E.
Qed.

Lemma split_length c s : length (split c s) = S (count_char c s).
Proof.
  induction s as [|x r IH]; [reflexivity|]. simpl.
  rewrite (Ascii.eqb_sym x c).
  destruct (Ascii.eqb c x); simpl.
  - rewrite IH. reflexivity.
  - destruct (split c r) as [|p ps]; simpl in *; [discriminate|lia].
Qed.

(** C8 (amended): a memory-compare filter compiled from [offset:0x<hex>]
    has a pattern of half as many bytes as [<hex>] has digits (none at all
    for [offset:0x]); one compiled from [offset:<base58 address>] has 32. *)
Theorem C8_pattern_length s m :
  parse_filter s = Ok (MemcmpFilter m) ->
  exists o v bs,
    split ":" s = [o; v] /\ memcmp_bytes m = Bytes bs /\
    (if starts_with "0x" v
     then (2 * length bs)%nat = (String.length v - 2)%nat
     else length bs = 32%nat).
Proof.
  unfold parse_filter. intros H.
  destruct (split ":" s) as [|o [|v [|x l]]]; try discriminate H.
  destruct (parse_u64 o); cbn [rbind map_err] in H; [|discriminate H].
  destruct (starts_with "0x" v) eqn:Hs.
  - destruct (Hex.decode (drop 2 v)) as [bs|] eqn:Hd; cbn [rbind map_err] in H; [|discriminate H].
    injection H as <-. exists o, v, bs. split; [reflexivity|]. split; [reflexivity|].
    rewrite Hs. apply hex_decode_length in Hd. rewrite drop_length in Hd. lia.
  - destruct (pubkey_from_str v) as [pk|] eqn:Hp; cbn [rbind map_err] in H; [|discriminate H].
    injection H as <-. exists o, v, pk. split; [reflexivity|]. split; [reflexivity|].
    rewrite Hs. eapply pubkey_from_str_length; eauto.
Qed.

(** C9 (amended): the filter compiler splits its argument at every [:] and
    fails with the filter-syntax error exactly when the argument does not
    contain exactly one [:]; so [10:a:b] fails with that error. *)
Theorem C9_filter_syntax s :
  parse_filter s = Err EFilterSyntax <-> count_char ":" s <> 1%nat.
Proof.
  pose proof (split_length ":" s) as Hl.
  unfold parse_filter.
  destruct (split ":" s) as [|o [|v [|x l]]]; simpl in Hl.
  - discriminate.
  - split; [intros _; lia | reflexivity].
  - split; [|intros H; exfalso; lia].
    intros H. destruct (parse_u64 o); cbn [rbind map_err] in H; [|discriminate H].
    destruct (starts_with "0x" v).
    + destruct (Hex.decode (drop 2 v)); cbn [rbind map_err] in H; discriminate H.
    + destruct (pubkey_from_str v); cbn [rbind map_err] in H; discriminate H.
  - split; [intros _; lia | reflexivity].
Qed.

(** C10: whenever the [alt] decoder succeeds, its [addresses] array lists
    the deserialised table's addresses in their stored order (in base58),
    and [num_addresses] is the length of that array. *)
Theorem C10_alt_counts bytes v :
  alt_decode bytes = Ok v ->
  exists alt addrs,
    alt_deserialize bytes = Ok alt /\
    addrs = map (fun pk => JString (pubkey_to_string pk)) (addresses alt) /\
    v = Object [("type"%string, JString "address_lookup_table");
                ("addresses"%string, Array addrs);
                ("num_addresses"%string, Number (Z.of_nat (length addrs)))].
Proof.
  unfold alt_decode. destruct (alt_deserialize bytes) as [alt|]; simpl; [|discriminate].
  intros H. injection H as <-. exists alt, (map (fun pk => JString (pubkey_to_string pk)) (addresses alt)).
  split; [reflexivity|]. split; [reflexivity|].
  rewrite map_map, !length_map. reflexivity.
Qed.

(** ** Witnesses and counterexamples *)

Lemma C1_witness :
  exists evs e v,
    main no_zstd alt_argv None (world_of alt_accounts) = (evs, 0%Z) /\
    In e evs /\ is_report_event v e /\
    v = report (program alt_cmd) (length (alt_entries no_zstd alt_accounts))
               (alt_entries no_zstd alt_accounts) /\
    (forall pk' acc bytes err,
        In (pk', acc) alt_accounts ->
        ui_account_data_decode no_zstd (acc_data acc) = Some bytes ->
        alt_decode bytes = Err err ->
        In (Stderr ("Failed to decode " ++ pubkey_to_string pk' ++ ": " ++ display_error err))
           evs).
Proof.
  apply (C1_decode_failures_isolated no_zstd alt_argv None (world_of alt_accounts) alt_cmd
           zero_key None [] alt_accounts).
  - vm_compute. reflexivity.
  - reflexivity.
  - vm_compute. reflexivity.
  - reflexivity.
  - reflexivity.
  - reflexivity.
  - intros f v H. discriminate H.
Defined.

Lemma C3_witness :
  exists prog results,
    raw_report = Object [("program"%string, JString prog);
                         ("count"%string, Number (Z.of_nat (length results)));
                         ("accounts"%string, Array results)].
Proof.
  apply (C3_count_is_length no_zstd raw_argv None raw_world
           (fst (main no_zstd raw_argv None raw_world)) (snd (main no_zstd raw_argv None raw_world))
           (Stdout raw_report) raw_report).
  - vm_compute. reflexivity.
  - vm_compute. find_in.
  - left. reflexivity.
Defined.

Lemma C5_witness :
  (exists results,
      raw_report = report (program raw_cmd) (length results) results /\
      Forall (fun entry => exists pk acc bytes,
                 ui_account_data_decode no_zstd (acc_data acc) = Some bytes /\
                 entry = account_entry pk acc
                           (Object [("type"%string, JString "raw");
                                    ("hex"%string, JString (Hex.encode bytes));
                                    ("base64"%string, JString (Base64.encode bytes));
                                    ("size"%string, Number (Z.of_nat (length bytes)))]))
             results) /\
  raw_view [Byte.x00; Byte.x01; Byte.x02] =
    Object [("type"%string, JString "raw"); ("hex"%string, JString "000102");
            ("base64"%string, JString "AAEC"); ("size"%string, Number 3)].
Proof.
  apply (C5_raw_view no_zstd raw_argv None raw_world
           (fst (main no_zstd raw_argv None raw_world)) (snd (main no_zstd raw_argv None raw_world))
           (Stdout raw_report) raw_report raw_cmd).
  - vm_compute. reflexivity.
  - reflexivity.
  - vm_compute. reflexivity.
  - vm_compute. find_in.
  - left. reflexivity.
Defined.

Lemma C6_witness :
  exists results,
    raw_report = report (program raw_cmd) (length results) results /\
    Forall (fun entry => exists pk acc h b sz,
               entry = account_entry pk acc
                         (Object [("type"%string, JString "raw"); ("hex"%string, JString h);
                                  ("base64"%string, JString b); ("size"%string, Number sz)]) /\
               exists bytes,
                 Hex.decode h = Ok bytes /\ Base64.decode b = Some bytes /\
                 sz = Z.of_nat (length bytes) /\ String.length h = (2 * length bytes)%nat)
           results.
Proof.
  apply (C6_hex_base64_agree no_zstd raw_argv None raw_world
           (fst (main no_zstd raw_argv None raw_world)) (snd (main no_zstd raw_argv None raw_world))
           (Stdout raw_report) raw_report raw_cmd).
  - vm_compute. reflexivity.
  - reflexivity.
  - vm_compute. reflexivity.
  - vm_compute. find_in.
  - left. reflexivity.
Defined.

Lemma C4_witness :
  let argv := [Pos "accs"; Pos system_program; Opt OParser "alt"; Opt OData "0:8"] in
  snd (main no_zstd argv None (world_of [])) <> 0%Z /\
  forall c pk cfg, ~ In (GetProgramAccounts c pk cfg) (fst (main no_zstd argv None (world_of []))).
Proof.
  intros argv.
  apply (C4_parser_data_rejected no_zstd argv None (world_of []) "alt" "0:8").
  - simpl. find_in.
  - simpl. find_in.
Defined.

Lemma C7_witness :
  exists rest cmd compiled,
    filter_argv = Pos "accs" :: rest /\ cli_parse filter_argv None = Ok cmd /\
    filter cmd = opt_values OFilter rest /\
    Forall2 (fun f r => parse_filter f = Ok r) (filter cmd) compiled /\
    filters filter_cfg = match compiled ++ size_filter (size cmd) with
                         | [] => None
                         | l => Some l
                         end /\
    (filter cmd = [] -> size cmd = None -> filters filter_cfg = None).
Proof.
  apply (C7_filter_order no_zstd filter_argv None (world_of [])
           (fst (main no_zstd filter_argv None (world_of [])))
           (snd (main no_zstd filter_argv None (world_of [])))
           filter_client zero_key filter_cfg).
  - vm_compute. reflexivity.
  - vm_compute. find_in.
Defined.

Lemma C8_witness :
  exists o v bs,
    split ":" "10:0xdead" = [o; v] /\
    memcmp_bytes (Memcmp_new 10 (Bytes [Byte.xde; Byte.xad])) = Bytes bs /\
    (if starts_with "0x" v
     then (2 * length bs)%nat = (String.length v - 2)%nat
     else length bs = 32%nat).
Proof.
  apply (C8_pattern_length "10:0xdead" (Memcmp_new 10 (Bytes [Byte.xde; Byte.xad]))).
  vm_compute. reflexivity.
Defined.

(** C8 fails as stated: [10:0x] compiles to a filter with an empty pattern. *)
Lemma C8_empty_pattern :
  exists m, parse_filter "10:0x" = Ok (MemcmpFilter m) /\ memcmp_bytes m = Bytes [].
Proof. eexists. split; [vm_compute; reflexivity | reflexivity]. Qed.

(** C9 fails as stated: [10:a:b] is refused with the filter-syntax error. *)
Lemma C9_three_parts : parse_filter "10:a:b" = Err EFilterSyntax.
Proof. vm_compute. reflexivity. Qed.

Lemma C10_witness :
  exists alt addrs,
    alt_deserialize alt_sample = Ok alt /\
    addrs = map (fun pk => JString (pubkey_to_string pk)) (addresses alt) /\
    alt_sample_value = Object [("type"%string, JString "address_lookup_table");
                               ("addresses"%string, Array addrs);
                               ("num_addresses"%string, Number (Z.of_nat (length addrs)))].
Proof.
  apply (C10_alt_counts alt_sample alt_sample_value).
  vm_compute. reflexivity.
Defined.

(** ** [main], end to end *)

Lemma main_eq zstd argv env w :
  main zstd argv env w =
  match cli_parse argv env with
  | Err _ => ([Stderr "error: invalid arguments"], 2%Z)
  | Ok cmd =>
  let rpc := RpcClient_new_with_timeout_and_commitment (url cmd) (15 * 60) Processed in
  match pubkey_from_str (program cmd) with
  | Err e => ([Stderr ("Error: " ++ display_error (EParsePubkey e))], 1%Z)
  | Ok pk =>
  match parse_data_slice (data cmd) with
  | Err e => ([Stderr ("Error: " ++ display_error e)], 1%Z)
  | Ok slice =>
  match collect (map parse_filter (filter cmd)) with
  | Err e => ([Stderr ("Error: " ++ display_error e)], 1%Z)
  | Ok parsed =>
  let cfg := program_accounts_config slice (parsed ++ size_filter (size cmd)) in
  match rpc_reply w rpc pk cfg with
  | Err m => ([GetProgramAccounts rpc pk cfg; Stderr ("Error: " ++ m)], 1%Z)
  | Ok accounts =>
  let fetched := [GetProgramAccounts rpc pk cfg;
                  Stderr ("Fetched " ++ decimal (length accounts) ++ " accounts")] in
  match get_decoder (parser cmd) with
  | Err e => (fetched ++ [Stderr ("Error: " ++ display_error e)], 1%Z)
  | Ok dec =>
  let results := flat_map (step_entries zstd dec) accounts in
  let logged := fetched ++ flat_map (step_events zstd dec) accounts
                ++ [Stderr ("Processed: " ++ decimal (length results))] in
  let v := report (program cmd) (length results) results in
  match output cmd with
  | Some f =>
      match fs_write w f v with
      | None => (logged ++ [WriteFile f v; Stderr ("Saved to " ++ f)], 0%Z)
      | Some m => (logged ++ [WriteFile f v; Stderr ("Error: " ++ m)], 1%Z)
      end
  | None => (logged ++ [Stdout v], 0%Z)
  end end end end end end end.
Proof.
  unfold main. destruct (cli_parse argv env) as [cmd|]; [|reflexivity].
  rewrite run_accs_eq. cbv zeta.
  destruct (pubkey_from_str (program cmd)); [|reflexivity].
  destruct (parse_data_slice (data cmd)); [|reflexivity].
  destruct (collect (map parse_filter (filter cmd))); [|reflexivity].
  destruct (rpc_reply _ _ _ _); [|reflexivity].
  destruct (get_decoder (parser cmd)); [|reflexivity].
  destruct (output cmd) as [f|]; [destruct (fs_write w f _)|]; simpl;
    rewrite <- ?app_assoc; reflexivity.
Qed.

(** Case analysis on every decision [main] takes, in a hypothesis. *)
Ltac main_cases H :=
  rewrite main_eq in H; cbv zeta in H;
  repeat (match type of H with
          | context [match ?x with _ => _ end] =>
              let E := fresh "E" in destruct x eqn:E
          end; cbv iota beta in H).

Lemma filter_step_events (p : Event -> bool) zstd d accounts :
  (forall s, p (Stderr s) = false) ->
  List.filter p (flat_map (step_events zstd d) accounts) = [].
Proof.
  intros Hp. induction accounts as [|acc rest IH]; [reflexivity|].
  simpl. rewrite filter_app, IH, app_nil_r.
  assert (H : forall l, (forall e, In e l -> exists s, e = Stderr s) -> List.filter p l = []).
  { induction l as [|x l IHl]; intros Hl; [reflexivity|].
    destruct (Hl x (or_introl eq_refl)) as [s ->]. simpl. rewrite Hp.
    apply IHl. intros e He. apply Hl. now right. }
  apply H. intros e He. eapply step_events_stderr; exact He.
Qed.

Lemma step_events_failures zstd d accounts :
  flat_map (step_events zstd d) accounts = decode_failures zstd d accounts.
Proof.
  induction accounts as [|[pk acc] rest IH]; [destruct d; reflexivity|].
  destruct d as [dec|]; simpl in *; rewrite IH;
    unfold step_events, account_data_value; simpl.
  - destruct (ui_account_data_decode zstd (acc_data acc)); [|reflexivity].
    destruct (decode dec l); reflexivity.
  - destruct (ui_account_data_decode zstd (acc_data acc)); reflexivity.
Qed.



(** X3: a malformed program id, [--data] range or [--filter] ends the run
    with exit code 1 and a single error line, before any request is sent. *)
Theorem X3_config_errors_offline zstd argv env w cmd :
  cli_parse argv env = Ok cmd ->
  (exists pe, pubkey_from_str (program cmd) = Err pe) \/
  (exists de, parse_data_slice (data cmd) = Err de) \/
  (exists fe, collect (map parse_filter (filter cmd)) = Err fe) ->
  exists e, main zstd argv env w = ([Stderr ("Error: " ++ display_error e)], 1%Z).
Proof.
  intros Hc Hbad. rewrite main_eq, Hc. cbv zeta.
  destruct (pubkey_from_str (program cmd)) as [pk|pe]; [|eauto].
  destruct (parse_data_slice (data cmd)) as [slice|de]; [|eauto].
  destruct (collect (map parse_filter (filter cmd))) as [parsed|fe]; [|eauto].
  exfalso. destruct Hbad as [[? ?]|[[? ?]|[? ?]]]; discriminate.
Qed.



Ltac sort_event Hin :=
  repeat (rewrite in_app_iff in Hin || simpl in Hin);
  repeat match goal with
  | H : _ \/ _ |- _ => destruct H as [H|H]
  | H : False |- _ => destruct H
  | H : In _ (flat_map (step_events _ _) _) |- _ =>
      apply in_flat_map in H; destruct H as [? [_ H]];
      apply step_events_stderr in H; destruct H as [? H]; discriminate H
  | H : _ = _ |- _ => discriminate H
  end.

(** X6: a write of the report goes to the [--output] file, as the last
    event but one; the run then ends with [Saved to <file>] and exit code 0,
    or, when the write fails, with the I/O error and exit code 1. *)
Theorem X6_output_write zstd argv env w evs code f v :
  main zstd argv env w = (evs, code) -> In (WriteFile f v) evs ->
  exists cmd pre,
    cli_parse argv env = Ok cmd /\ output cmd = Some f /\
    evs = pre ++ [WriteFile f v;
                  match fs_write w f v with
                  | None => Stderr ("Saved to " ++ f)
                  | Some m => Stderr ("Error: " ++ m)
                  end] /\
    List.filter is_output pre = [] /\
    code = match fs_write w f v with None => 0%Z | Some _ => 1%Z end.
Proof.
  intros H Hin. main_cases H; apply pair_equal_spec in H; destruct H as [<- <-];
    sort_event Hin; injection Hin as <- <-; rewrite E6;
    (do 2 eexists; split; [reflexivity|]; split; [exact E5|];
     split; [reflexivity|]; split; [|reflexivity];
     rewrite !filter_app, filter_step_events by reflexivity; reflexivity).
Qed.

(** X7: the request is sent through a client for the resolved URL with a
    900 s timeout and [processed] commitment, for the program id given,
    asking for [base64+zstd] data with the parsed [--data] slice and no
    other account or context option. *)
Theorem X7_request_parameters zstd argv env w evs code c pk cfg :
  main zstd argv env w = (evs, code) -> In (GetProgramAccounts c pk cfg) evs ->
  exists cmd slice,
    cli_parse argv env = Ok cmd /\
    client_url c = url cmd /\ timeout_secs c = 900 /\ client_commitment c = Processed /\
    pubkey_from_str (program cmd) = Ok pk /\
    parse_data_slice (data cmd) = Ok slice /\
    account_config cfg = {| encoding := Some Base64Zstd; data_slice := slice;
                            commitment := None; min_context_slot := None |} /\
    with_context cfg = None /\ sort_results cfg = None.
Proof.
  intros H Hin. main_cases H; apply pair_equal_spec in H; destruct H as [<- _];
    sort_event Hin; injection Hin as <- <- <-;
    exists a, a1; repeat split; assumption.
Qed.

(** X8: the [--data] argument fails with the range error exactly when it
    does not contain exactly one [:]. *)
Theorem X8_data_range_syntax r :
  parse_data_slice (Some r) = Err EDataRange <-> count_char ":" r <> 1%nat.
Proof.
  pose proof (split_length ":" r) as Hl.
  unfold parse_data_slice.
  destruct (split ":" r) as [|o [|v [|x l]]]; simpl in Hl.
  - discriminate.
  - split; [intros _; lia | reflexivity].
  - split; [|intros H; exfalso; lia].
    intros H. destruct (parse_u64 o); cbn [rbind map_err] in H; [|discriminate H].
    destruct (parse_u64 v); cbn [rbind map_err] in H; discriminate H.
  - split; [intros _; lia | reflexivity].
Qed.

(** X9: a parsed data slice is present exactly when [--data] is given, and
    its offset and length are the two numbers on either side of its [:]. *)
Theorem X9_data_slice_fields d s :
  parse_data_slice d = Ok s ->
  match d, s with
  | None, None => True
  | Some r, Some sl =>
      exists a b, split ":" r = [a; b] /\
                  parse_u64 a = Ok (slice_offset sl) /\ parse_u64 b = Ok (slice_length sl)
  | _, _ => False
  end.
Proof.
  destruct d as [r|]; simpl; [|intros H; injection H as <-; exact I].
  destruct (split ":" r) as [|a [|b [|x l]]] eqn:Hs; try (intros H; discriminate H).
  destruct (parse_u64 a) as [o|] eqn:Ha; cbn [rbind map_err]; [|intros H; discriminate H].
  destruct (parse_u64 b) as [n|] eqn:Hb; cbn [rbind map_err]; [|intros H; discriminate H].
  intros H. injection H as <-. exists a, b. auto.
Qed.

Lemma single_spec o args x :
  single o args = Ok x ->
  opt_values o args = match x with None => [] | Some v => [v] end.
Proof.
  unfold single. destruct (opt_values o args) as [|a [|b l]]; intros H;
    try discriminate H; injection H as <-; reflexivity.
Qed.

(** X10: the RPC URL is the [--url] argument if given, else the value of
    [RPC_NODE], else the public default node. *)
Theorem X10_url_resolution argv env cmd :
  cli_parse argv env = Ok cmd ->
  exists rest, argv = Pos "accs" :: rest /\
    (opt_values OUrl rest = [url cmd] \/
     (opt_values OUrl rest = [] /\
      url cmd = match env with Some e => e | None => default_url end)).
Proof.
  destruct argv as [|[s|o v] rest]; simpl; try discriminate.
  destruct (String.eqb s "accs") eqn:E; [|discriminate].
  apply String.eqb_eq in E. subst s. intros H. exists rest. split; [reflexivity|].
  unfold parse_accs in H.
  destruct (single OUrl rest) as [u|] eqn:Hu; cbn [rbind] in H; [|discriminate H].
  apply single_spec in Hu.
  destruct (single OParser rest) as [p|]; cbn [rbind] in H; [|discriminate H].
  destruct (single OData rest) as [d|]; cbn [rbind] in H; [|discriminate H].
  destruct (single OSize rest) as [sz|]; cbn [rbind] in H; [|discriminate H].
  destruct (single OOutput rest); cbn [rbind] in H; [|discriminate H].
  assert (Hurl : url cmd = match u, env with
                           | Some u, _ => u
                           | None, Some e => e
                           | None, None => default_url
                           end).
  { destruct p, d; try discriminate H;
      (destruct sz as [sz|]; [destruct (parse_u64 sz)|]); cbn [rbind] in H;
      try discriminate H;
      (destruct (positionals rest) as [|? [|? ?]]; try discriminate H);
      injection H as <-; reflexivity. }
  rewrite Hurl. destruct u as [u|]; [left; exact Hu|right; split; [exact Hu|reflexivity]].
Qed.

(** X11: a parser name other than [alt] is refused only after the request
    has been answered: the run prints the fetched count, then the unknown
    parser, and exits with code 1 without a report. *)
Theorem X11_unknown_parser zstd argv env w cmd pk slice parsed accounts p :
  let client := RpcClient_new_with_timeout_and_commitment (url cmd) (15 * 60) Processed in
  let cfg := program_accounts_config slice (parsed ++ size_filter (size cmd)) in
  cli_parse argv env = Ok cmd ->
  pubkey_from_str (program cmd) = Ok pk ->
  parse_data_slice (data cmd) = Ok slice ->
  collect (map parse_filter (filter cmd)) = Ok parsed ->
  rpc_reply w client pk cfg = Ok accounts ->
  parser cmd = Some p -> p <> "alt"%string ->
  main zstd argv env w =
    ([GetProgramAccounts client pk cfg;
      Stderr ("Fetched " ++ decimal (length accounts) ++ " accounts");
      Stderr ("Error: Unknown parser: " ++ p)], 1%Z).
Proof.
  intros client cfg Hc Hp Hs Hf Hr Hpa Hne. rewrite main_eq, Hc. cbv zeta.
  rewrite Hp, Hs, Hf. fold client cfg. rewrite Hr.
  unfold get_decoder. rewrite Hpa.
  destruct (String.eqb p "alt") eqn:E; [apply String.eqb_eq in E; contradiction|].
  reflexivity.
Qed.

(** X12: once the decoder is chosen, standard error carries the request's
    account count, then one [Failed to decode] line for each account (in
    the order received) whose payload decodes but which the decoder
    rejects, and nothing for the others, then the processed count; one
    report follows. *)
Theorem X12_diagnostic_stream zstd argv env w cmd pk slice parsed accounts dec :
  let client := RpcClient_new_with_timeout_and_commitment (url cmd) (15 * 60) Processed in
  let cfg := program_accounts_config slice (parsed ++ size_filter (size cmd)) in
  cli_parse argv env = Ok cmd ->
  pubkey_from_str (program cmd) = Ok pk ->
  parse_data_slice (data cmd) = Ok slice ->
  collect (map parse_filter (filter cmd)) = Ok parsed ->
  rpc_reply w client pk cfg = Ok accounts ->
  get_decoder (parser cmd) = Ok dec ->
  exists tail,
    fst (main zstd argv env w) =
      [GetProgramAccounts client pk cfg;
       Stderr ("Fetched " ++ decimal (length accounts) ++ " accounts")]
      ++ decode_failures zstd dec accounts
      ++ [Stderr ("Processed: " ++ decimal (length (flat_map (step_entries zstd dec) accounts)))]
      ++ tail /\
    length (List.filter is_output tail) = 1%nat.
Proof.
  intros client cfg Hc Hp Hs Hf Hr Hd. rewrite main_eq, Hc. cbv zeta.
  rewrite Hp, Hs, Hf. fold client cfg. rewrite Hr, Hd, step_events_failures.
  destruct (output cmd) as [f|]; [destruct (fs_write w f _)|]; simpl fst;
    (eexists; split; [rewrite <- !app_assoc; reflexivity | reflexivity]).
Qed.

Lemma flat_map_le_one {A B} (f : A -> list B) l :
  (forall a, length (f a) <= 1)%nat -> (length (flat_map f l) <= length l)%nat.
Proof.
  intros Hf. induction l as [|a l IH]; simpl; [lia|].
  rewrite length_app. specialize (Hf a). lia.
Qed.

(** X13: the report's entries are chosen and built account by account, in
    the order the node returned them: each account gives at most one entry,
    carrying its own pubkey, lamports and owner, and [count] is the number
    of entries. *)
Theorem X13_report_entries zstd argv env w evs code e v :
  main zstd argv env w = (evs, code) -> In e evs -> is_report_event v e ->
  exists cmd c pk cfg accounts (keep : Pubkey -> UiAccount -> option Value),
    cli_parse argv env = Ok cmd /\
    In (GetProgramAccounts c pk cfg) evs /\ rpc_reply w c pk cfg = Ok accounts /\
    let results := flat_map (fun '(pk', acc) =>
                               match keep pk' acc with
                               | Some dv => [account_entry pk' acc dv]
                               | None => []
                               end) accounts in
    v = report (program cmd) (length results) results /\
    (length results <= length accounts)%nat.
Proof.
  intros Hm Hin R.
  destruct (main_report zstd argv env w evs code e v Hm Hin R)
    as (cmd & pk & slice & parsed & accounts & dec & Hc & Hp & Hs & Hf & Hr & Hd & ->).
  set (keep := fun pk' acc =>
                 match snd (account_data_value zstd dec pk' acc) with
                 | Ok o => o
                 | Err _ => None
                 end).
  assert (Hk : flat_map (step_entries zstd dec) accounts =
               flat_map (fun '(pk', acc) =>
                           match keep pk' acc with
                           | Some dv => [account_entry pk' acc dv]
                           | None => []
                           end) accounts).
  { apply flat_map_ext. intros [pk' acc]. unfold step_entries, keep. simpl.
    destruct (snd (account_data_value zstd dec pk' acc)) as [[dv|]|]; reflexivity. }
  exists cmd, (RpcClient_new_with_timeout_and_commitment (url cmd) (15 * 60) Processed), pk,
    (program_accounts_config slice (parsed ++ size_filter (size cmd))), accounts, keep.
  split; [exact Hc|]. split.
  - rewrite main_eq, Hc in Hm. cbv zeta in Hm. rewrite Hp, Hs, Hf, Hr, Hd in Hm.
    destruct (output cmd) as [f|]; [destruct (fs_write w f _)|];
      apply pair_equal_spec in Hm; destruct Hm as [<- _]; left; reflexivity.
  - split; [exact Hr|]. cbv zeta. rewrite <- Hk. split; [reflexivity|].
    apply flat_map_le_one. intros [pk' acc]. unfold step_entries.
    destruct (snd _) as [[dv|]|]; simpl; lia.
Qed.

Lemma split_no_sep c s : count_char c s = 0%nat -> split c s = [s].
Proof.
  induction s as [|x r IH]; simpl; [reflexivity|].
  destruct (Ascii.eqb x c) eqn:E; simpl; [discriminate|]. intros H.
  rewrite IH by exact H. reflexivity.
Qed.

Lemma split_at_first c s t :
  count_char c s = 0%nat -> split c (s ++ String c t) = s :: split c t.
Proof.
  induction s as [|x r IH]; simpl; intros H.
  - rewrite Ascii.eqb_refl. reflexivity.
  - destruct (Ascii.eqb x c) eqn:E; simpl in H; [discriminate|].
    rewrite IH by exact H. reflexivity.
Qed.

Lemma count_app c s t : count_char c (s ++ t) = (count_char c s + count_char c t)%nat.
Proof. induction s as [|x r IH]; simpl; [reflexivity|]. rewrite IH. lia. Qed.

Lemma hex_digit_not_colon n : n < 16 -> Ascii.eqb (Hex.digit n) ":" = false.
Proof.
  intros Hn.
  pose proof (forall_below (fun n => negb (Ascii.eqb (Hex.digit n) ":")) 16 eq_refl n Hn) as H.
  cbv beta in H. now destruct (Ascii.eqb (Hex.digit n) ":").
Qed.

Lemma hex_encode_no_colon bs : count_char ":" (Hex.encode bs) = 0%nat.
Proof.
  induction bs as [|b rest IH]; simpl; [reflexivity|].
  rewrite !hex_digit_not_colon by (byte_bounds; euclid). simpl. exact IH.
Qed.

Lemma parse_u64_other c r :
  c <> "+"%char -> parse_u64 (String c r) = parse_digits (String c r) 0.
Proof.
  intros Hc. destruct c as [[] [] [] [] [] [] [] []]; try reflexivity. contradiction.
Qed.

Lemma parse_digits_no_colon s acc n :
  parse_digits s acc = Ok n -> count_char ":" s = 0%nat.
Proof.
  revert acc. induction s as [|c r IH]; intros acc H; [reflexivity|].
  simpl in H |- *.
  destruct (Ascii.eqb c ":") eqn:E.
  - apply Ascii.eqb_eq in E. subst c. discriminate H.
  - destruct (digit_value c); [|discriminate H].
    destruct (_ <=? _); [discriminate H|]. simpl. eapply IH; exact H.
Qed.

Lemma parse_u64_no_colon s n : parse_u64 s = Ok n -> count_char ":" s = 0%nat.
Proof.
  destruct s as [|c r]; [discriminate|].
  destruct (Ascii.eqb c "+") eqn:E.
  - apply Ascii.eqb_eq in E. subst c. simpl.
    destruct r as [|c' r']; [discriminate|]. apply parse_digits_no_colon.
  - rewrite parse_u64_other by (intros ->; discriminate E). apply parse_digits_no_colon.
Qed.

(** X14: [hex::encode] output is read back exactly by the filter
    compiler: [<offset>:0x<hex of bs>] compiles to a memory-compare filter
    at that offset with pattern [bs]. *)
Theorem X14_hex_filter_roundtrip o n bs :
  parse_u64 o = Ok n ->
  parse_filter (o ++ ":0x" ++ Hex.encode bs) = Ok (MemcmpFilter (Memcmp_new n (Bytes bs))).
Proof.
  intros Ho. unfold parse_filter. simpl (":0x" ++ _)%string.
  rewrite split_at_first by (eapply parse_u64_no_colon; exact Ho).
  rewrite split_no_sep by (simpl; apply hex_encode_no_colon).
  rewrite Ho. cbn [rbind map_err]. simpl (starts_with _ _). simpl (drop _ _).
  rewrite hex_decode_encode. reflexivity.
Qed.

Lemma chunks_spec fuel l :
  (length l <= fuel)%nat -> (length l mod 32 = 0)%nat ->
  List.concat (chunks fuel l) = l /\ Forall (fun a => length a = 32%nat) (chunks fuel l) /\
  (32 * length (chunks fuel l) = length l)%nat.
Proof.
  revert l. induction fuel as [|f IH]; intros l Hl Hm.
  - destruct l; simpl in *; [auto|lia].
  - destruct l as [|b l']; [simpl; auto|].
    apply Nat.Div0.mod_divides in Hm. destruct Hm as [k Hk].
    assert (H32 : (32 <= length (b :: l'))%nat) by (simpl in Hk |- *; lia).
    destruct (IH (skipn PUBKEY_BYTES (b :: l'))) as (A & B & C).
    + rewrite length_skipn. unfold PUBKEY_BYTES. simpl in Hl |- *. lia.
    + rewrite length_skipn. unfold PUBKEY_BYTES. apply Nat.Div0.mod_divides.
      exists (k - 1)%nat. rewrite Hk. lia.
    + cbn [chunks List.concat]. rewrite A, firstn_skipn. split; [reflexivity|].
      split; [constructor; [rewrite length_firstn; unfold PUBKEY_BYTES; lia|exact B]|].
      rewrite length_skipn in C. unfold PUBKEY_BYTES in *. simpl length in *. lia.
Qed.

Lemma Ok_inj {A E} (a b : A) : @Ok A E a = Ok b -> a = b.
Proof. intros H. injection H. auto. Qed.

(** X15: a deserialised lookup table spans at least its 56-byte meta, and
    its addresses are the rest of the account data cut into 32-byte keys,
    in order, so there are (length - 56) / 32 of them. *)
Theorem X15_alt_layout data alt :
  alt_deserialize data = Ok alt ->
  (56 <= length data)%nat /\
  Forall (fun a => length a = 32%nat) (addresses alt) /\
  List.concat (addresses alt) = skipn 56 data /\
  (32 * length (addresses alt) = length data - 56)%nat.
Proof.
  unfold alt_deserialize.
  destruct (deserialize_program_state data) as [[|m]|]; intros H; try discriminate H.
  destruct (Nat.ltb (length data) LOOKUP_TABLE_META_SIZE) eqn:Hl; [discriminate H|].
  destruct (Nat.eqb _ 0) eqn:Hm; [|discriminate H].
  apply Ok_inj in H. subst alt. cbn [addresses]. apply Nat.ltb_ge in Hl. apply Nat.eqb_eq in Hm.
  destruct (chunks_spec _ _ (le_n _) Hm) as (A & B & C).
  unfold LOOKUP_TABLE_META_SIZE in *.
  split; [exact Hl|]. split; [exact B|]. split; [exact A|].
  rewrite C, length_skipn. reflexivity.
Qed.

Lemma byte_zero b : Byte.to_N b = 0 -> b = Byte.x00.
Proof.
  intros H. pose proof (Byte.of_to_N b) as E. rewrite H in E. injection E as E. now subst.
Qed.

Lemma deserialize_uninitialized data :
  deserialize_program_state data = Some Uninitialized <-> firstn 4 data = repeat Byte.x00 4.
Proof.
  unfold deserialize_program_state, read_le.
  destruct data as [|a [|b [|c [|d rest]]]]; cbn -[N.mul N.add N.eqb];
    try (split; intros H; discriminate H).
  destruct (_ =? 0) eqn:E0.
  - apply N.eqb_eq in E0. unfold bval in E0.
    assert (Ha : Byte.to_N a = 0) by lia. assert (Hb : Byte.to_N b = 0) by lia.
    assert (Hc : Byte.to_N c = 0) by lia. assert (Hd : Byte.to_N d = 0) by lia.
    apply byte_zero in Ha, Hb, Hc, Hd. subst. split; reflexivity.
  - split.
    + destruct (_ =? 1); [|intros H; discriminate H].
      repeat (match goal with
              | |- context [obind ?o _] => destruct o as [[? ?]|]
              end; cbn [obind]); intros H; discriminate H.
    + intros H. injection H as -> -> -> ->. discriminate E0.
Qed.

(** X16: the lookup-table decoder reports an uninitialised account exactly
    when the data starts with four zero bytes (the [Uninitialized] tag);
    every other failure is invalid account data. *)
Theorem X16_alt_uninitialized data :
  (alt_deserialize data = Err UninitializedAccount <-> firstn 4 data = repeat Byte.x00 4) /\
  (alt_deserialize data = Err InvalidAccountData \/ alt_deserialize data = Err UninitializedAccount \/
   exists alt, alt_deserialize data = Ok alt).
Proof.
  rewrite <- deserialize_uninitialized. unfold alt_deserialize.
  destruct (deserialize_program_state data) as [[|m]|].
  - split; [split; reflexivity|]. auto.
  - destruct (Nat.ltb _ _); [|destruct (Nat.eqb _ _)];
      (split; [split; intros H; discriminate H|]); eauto.
  - split; [split; intros H; discriminate H|]. auto.
Qed.

Lemma b64_encode_length d :
  String.length (Base64.encode d) = (4 * ((length d + 2) / 3))%nat.
Proof.
  induction d as [| a | a b | a b c l IH] using list_ind3; try reflexivity.
  cbn [Base64.encode String.length]. rewrite IH. simpl length.
  replace (S (S (S (length l))) + 2)%nat with (1 * 3 + (length l + 2))%nat by lia.
  rewrite Nat.div_add_l by lia. lia.
Qed.

(** X17: in the raw view the hex string has two characters per byte and
    the base64 string four characters per started group of three bytes. *)
Theorem X17_raw_view_lengths data :
  exists h b,
    raw_view data = Object [("type"%string, JString "raw"); ("hex"%string, JString h);
                            ("base64"%string, JString b);
                            ("size"%string, Number (Z.of_nat (length data)))] /\
    String.length h = (2 * length data)%nat /\
    String.length b = (4 * ((length data + 2) / 3))%nat.
Proof.
  exists (Hex.encode data), (Base64.encode data). split; [reflexivity|].
  split; [apply hex_encode_length | apply b64_encode_length].
Qed.

Lemma X3_witness :
  exists e, main no_zstd [Pos "accs"; Pos "0"] None raw_world =
            ([Stderr ("Error: " ++ display_error e)], 1%Z).
Proof.
  eapply X3_config_errors_offline; [reflexivity|]. left. eexists. reflexivity.
Defined.



Lemma X6_witness :
  In (WriteFile "out.json" raw_report)
     (fst (main no_zstd raw_out_argv None (readonly_world [(zero_key, sample_account "AAEC")]))) /\
  exists cmd pre,
    cli_parse raw_out_argv None = Ok cmd /\ output cmd = Some "out.json"%string /\
    fst (main no_zstd raw_out_argv None (readonly_world [(zero_key, sample_account "AAEC")])) =
      pre ++ [WriteFile "out.json" raw_report;
              Stderr ("Error: " ++ "Permission denied (os error 13)")] /\
    List.filter is_output pre = [] /\
    snd (main no_zstd raw_out_argv None (readonly_world [(zero_key, sample_account "AAEC")]))
      = 1%Z.
Proof.
  split; [vm_compute; find_in|].
  apply (X6_output_write no_zstd raw_out_argv None (readonly_world [(zero_key, sample_account "AAEC")])
           _ _ "out.json" raw_report).
  - apply surjective_pairing.
  - vm_compute. find_in.
Defined.

Lemma X7_witness :
  In (GetProgramAccounts filter_client zero_key (program_accounts_config None []))
     (fst (main no_zstd raw_argv None raw_world)) /\
  exists cmd slice,
    cli_parse raw_argv None = Ok cmd /\
    client_url filter_client = url cmd /\ timeout_secs filter_client = 900 /\
    client_commitment filter_client = Processed /\
    pubkey_from_str (program cmd) = Ok zero_key /\
    parse_data_slice (data cmd) = Ok slice /\
    account_config (program_accounts_config None []) =
      {| encoding := Some Base64Zstd; data_slice := slice;
         commitment := None; min_context_slot := None |} /\
    with_context (program_accounts_config None []) = None /\
    sort_results (program_accounts_config None []) = None.
Proof.
  split; [vm_compute; find_in|].
  apply (X7_request_parameters no_zstd raw_argv None raw_world
           (fst (main no_zstd raw_argv None raw_world)) (snd (main no_zstd raw_argv None raw_world))
           filter_client zero_key
           (program_accounts_config None []));
    [apply surjective_pairing | vm_compute; find_in].
Defined.

Lemma X9_witness :
  parse_data_slice (Some "10:30"%string) = Ok (Some {| slice_offset := 10; slice_length := 30 |}) /\
  exists a b, split ":" "10:30" = [a; b] /\ parse_u64 a = Ok 10 /\ parse_u64 b = Ok 30.
Proof.
  split; [reflexivity|].
  exact (X9_data_slice_fields (Some "10:30"%string) (Some {| slice_offset := 10; slice_length := 30 |})
           eq_refl).
Defined.

Lemma X10_witness :
  exists cmd, cli_parse raw_argv (Some local_node) = Ok cmd /\
    exists rest, raw_argv = Pos "accs" :: rest /\
      (opt_values OUrl rest = [url cmd] \/
       (opt_values OUrl rest = [] /\ url cmd = local_node)).
Proof.
  eexists. split; [reflexivity|]. apply (X10_url_resolution raw_argv (Some local_node)). reflexivity.
Defined.

Lemma X11_witness :
  main no_zstd foo_argv None (world_of []) =
    ([GetProgramAccounts filter_client zero_key (program_accounts_config None []);
      Stderr ("Fetched " ++ decimal 0 ++ " accounts");
      Stderr ("Error: Unknown parser: " ++ "foo")], 1%Z).
Proof.
  apply (X11_unknown_parser no_zstd foo_argv None (world_of []) foo_cmd zero_key None [] []
           "foo"); try reflexivity. discriminate.
Defined.

Lemma X12_witness :
  exists tail,
    fst (main no_zstd alt_argv None (world_of alt_accounts)) =
      [GetProgramAccounts filter_client zero_key (program_accounts_config None []);
       Stderr ("Fetched " ++ decimal (length alt_accounts) ++ " accounts")]
      ++ decode_failures no_zstd (Some AltDecoder) alt_accounts
      ++ [Stderr ("Processed: " ++
                  decimal (length (flat_map (step_entries no_zstd (Some AltDecoder)) alt_accounts)))]
      ++ tail /\
    length (List.filter is_output tail) = 1%nat.
Proof.
  apply (X12_diagnostic_stream no_zstd alt_argv None (world_of alt_accounts) alt_cmd zero_key
           None [] alt_accounts (Some AltDecoder)); reflexivity.
Defined.

Lemma X13_witness :
  exists cmd c pk cfg accounts (keep : Pubkey -> UiAccount -> option Value),
    cli_parse raw_argv None = Ok cmd /\
    In (GetProgramAccounts c pk cfg) (fst (main no_zstd raw_argv None raw_world)) /\
    rpc_reply raw_world c pk cfg = Ok accounts /\
    let results := flat_map (fun '(pk', acc) =>
                               match keep pk' acc with
                               | Some dv => [account_entry pk' acc dv]
                               | None => []
                               end) accounts in
    raw_report = report (program cmd) (length results) results /\
    (length results <= length accounts)%nat.
Proof.
  apply (X13_report_entries no_zstd raw_argv None raw_world
           (fst (main no_zstd raw_argv None raw_world)) (snd (main no_zstd raw_argv None raw_world))
           (Stdout raw_report) raw_report).
  - apply surjective_pairing.
  - vm_compute. find_in.
  - left. reflexivity.
Defined.

Lemma X14_witness :
  parse_filter ("10" ++ ":0x" ++ Hex.encode [Byte.xde; Byte.xad]) =
  Ok (MemcmpFilter (Memcmp_new 10 (Bytes [Byte.xde; Byte.xad]))).
Proof. apply X14_hex_filter_roundtrip. reflexivity. Defined.

Lemma X15_witness :
  (56 <= length alt_sample)%nat /\
  Forall (fun a => length a = 32%nat) (addresses alt_sample_table) /\
  List.concat (addresses alt_sample_table) = skipn 56 alt_sample /\
  (32 * length (addresses alt_sample_table) = length alt_sample - 56)%nat.
Proof. apply X15_alt_layout. vm_compute. reflexivity. Defined.

Lemma b58_sym_index d : d < 58 -> str_index (Base58.sym d) Base58.alphabet = Some (N.to_nat d).
Proof.
  intros Hd.
  pose proof (forall_below (fun d => match str_index (Base58.sym d) Base58.alphabet with
                                     | Some k => N.of_nat k =? d
                                     | None => false
                                     end) 58 eq_refl d Hd) as H.
  cbv beta in H. destruct (str_index (Base58.sym d) Base58.alphabet) as [k|]; [|discriminate H].
  apply N.eqb_eq in H. subst d. rewrite Nat2N.id. reflexivity.
Qed.

Lemma b58_sym_not_one d : 0 < d -> d < 58 -> Ascii.eqb (Base58.sym d) "1" = false.
Proof.
  intros Hp Hd.
  pose proof (forall_below (fun d => (d =? 0) || negb (Ascii.eqb (Base58.sym d) "1")) 58
                eq_refl d Hd) as H.
  cbv beta in H. destruct (N.eqb_spec d 0); [lia|].
  now destruct (Ascii.eqb (Base58.sym d) "1").
Qed.

Lemma leading_ones_other c r : Ascii.eqb c "1" = false -> Base58.leading_ones (String c r) = 0%nat.
Proof. destruct c as [[] [] [] [] [] [] [] []]; intros H; try reflexivity; discriminate H. Qed.

Lemma b58_digits_map ds i :
  Forall (fun d => d < 58) ds ->
  Base58.digits (string_of_list_ascii (map Base58.sym ds)) i = Ok ds.
Proof.
  revert i. induction ds as [|d ds IH]; intros i Hf; [reflexivity|].
  inversion Hf as [|? ? Hd Hr]; subst.
  cbn [map string_of_list_ascii Base58.digits]. rewrite b58_sym_index by exact Hd.
  cbn [rbind]. rewrite IH by exact Hr. cbn [rbind]. rewrite N2Nat.id. reflexivity.
Qed.

Lemma b58_leading_ones z ds :
  (ds = [] \/ exists d t, ds = d :: t /\ 0 < d /\ d < 58) ->
  Base58.leading_ones (string_of_list_ascii (map Base58.sym (repeat 0 z ++ ds))) = z.
Proof.
  intros Hds. induction z as [|z IH].
  - destruct Hds as [->|(d & t & -> & Hp & Hd)]; [reflexivity|].
    cbn [app map string_of_list_ascii]. apply leading_ones_other, b58_sym_not_one; assumption.
  - cbn [repeat app map string_of_list_ascii]. change (Base58.sym 0) with "1"%char.
    cbn [Base58.leading_ones]. rewrite IH. reflexivity.
Qed.

Lemma length_string_of_list l : String.length (string_of_list_ascii l) = length l.
Proof. induction l as [|a l IH]; simpl; [reflexivity|]. rewrite IH. reflexivity. Qed.

Lemma fold58_zeros z ds :
  fold_left (fun acc d => acc * 58 + d) (repeat 0 z ++ ds) 0 =
  fold_left (fun acc d => acc * 58 + d) ds 0.
Proof.
  rewrite fold_left_app. f_equal. induction z as [|z IH]; [reflexivity|].
  cbn [repeat fold_left]. exact IH.
Qed.

Lemma be_digits_zero f : Base58.be_digits f 0 = [].
Proof. destruct f; reflexivity. Qed.

Lemma be_bytes_zero f : Base58.be_bytes f 0 = [].
Proof. destruct f; reflexivity. Qed.

Lemma be_digits_spec fuel n :
  n < 58 ^ N.of_nat fuel ->
  fold_left (fun acc d => acc * 58 + d) (Base58.be_digits fuel n) 0 = n /\
  Forall (fun d => d < 58) (Base58.be_digits fuel n) /\
  n < 58 ^ N.of_nat (length (Base58.be_digits fuel n)) /\
  (n = 0 -> Base58.be_digits fuel n = []) /\
  (0 < n -> 58 ^ (N.of_nat (length (Base58.be_digits fuel n)) - 1) <= n /\
            exists d t, Base58.be_digits fuel n = d :: t /\ 0 < d /\ d < 58).
Proof.
  revert n. induction fuel as [|f IH]; intros n Hn.
  - simpl in Hn. assert (n = 0) by lia. subst n. simpl. repeat split; try constructor; lia.
  - cbn [Base58.be_digits]. destruct (N.eqb_spec n 0) as [->|Hnz].
    + simpl. repeat split; try constructor; lia.
    + rewrite Nat2N.inj_succ, N.pow_succ_r' in Hn.
      assert (Hq : n / 58 < 58 ^ N.of_nat f).
      { apply N.Div0.div_lt_upper_bound. lia. }
      destruct (IH (n / 58) Hq) as (F & B & L & Z & P).
      set (ds := Base58.be_digits f (n / 58)) in *.
      assert (Hdm : n = 58 * (n / 58) + n mod 58) by (apply N.div_mod; lia).
      assert (Hm : n mod 58 < 58) by (apply N.mod_lt; lia).
      rewrite length_app. simpl length. rewrite Nat.add_1_r, Nat2N.inj_succ.
      split; [rewrite fold_left_app; cbn [fold_left]; rewrite F; lia|].
      split; [apply Forall_app; split; [exact B|constructor; [exact Hm|constructor]]|].
      split; [rewrite N.pow_succ_r'; lia|].
      split; [lia|]. intros _.
      destruct (N.eqb_spec (n / 58) 0) as [Hq0|Hq0].
      * rewrite (Z Hq0). simpl. split; [lia|].
        exists (n mod 58), []. split; [reflexivity|]. lia.
      * destruct (P ltac:(lia)) as (Hlow & d & t & Hds & Hd0 & Hd58).
        rewrite Hds in Hlow |- *. simpl length in Hlow |- *.
        rewrite Nat2N.inj_succ in Hlow |- *.
        replace (N.succ (N.succ (N.of_nat (length t))) - 1) with (N.succ (N.of_nat (length t))) by lia.
        replace (N.succ (N.of_nat (length t)) - 1) with (N.of_nat (length t)) in Hlow by lia.
        rewrite N.pow_succ_r'. split.
        { apply N.le_trans with (58 * (n / 58)); [apply N.mul_le_mono_l; exact Hlow | apply N.Div0.mul_div_le]. }
        exists d, (t ++ [n mod 58]). split; [reflexivity|]. lia.
Qed.

Lemma fold256_ge l acc : acc <= fold_left (fun acc b => acc * 256 + bval b) l acc.
Proof.
  revert acc. induction l as [|b l IH]; intros acc; cbn [fold_left]; [lia|].
  specialize (IH (acc * 256 + bval b)). lia.
Qed.

Lemma fold256_lt l : fold_left (fun acc b => acc * 256 + bval b) l 0 < 256 ^ N.of_nat (length l).
Proof.
  induction l as [|b l IH] using rev_ind; [simpl; lia|].
  rewrite fold_left_app, length_app. cbn [fold_left length].
  rewrite Nat.add_1_r, Nat2N.inj_succ, N.pow_succ_r'.
  pose proof (Byte.to_N_bounded b).
  generalize dependent (fold_left (fun acc b => acc * 256 + bval b) l 0).
  generalize (256 ^ N.of_nat (length l)). unfold bval. intros. nia.
Qed.

Lemma fold256_zeros z l :
  fold_left (fun acc b => acc * 256 + bval b) (repeat Byte.x00 z ++ l) 0 =
  fold_left (fun acc b => acc * 256 + bval b) l 0.
Proof.
  rewrite fold_left_app. f_equal. induction z as [|z IH]; [reflexivity|].
  cbn [repeat fold_left]. exact IH.
Qed.

Lemma be_bytes_value rest :
  forall F, (forall h t, rest = h :: t -> bval h <> 0) ->
  fold_left (fun acc b => acc * 256 + bval b) rest 0 < 256 ^ N.of_nat F ->
  Base58.be_bytes F (fold_left (fun acc b => acc * 256 + bval b) rest 0) = rest.
Proof.
  induction rest as [|b init IH] using rev_ind; intros F Hnz Hlt.
  - apply be_bytes_zero.
  - assert (Hpos : 0 < fold_left (fun acc b => acc * 256 + bval b) (init ++ [b]) 0).
    { destruct (init ++ [b]) as [|h t] eqn:E; [destruct init; discriminate E|].
      specialize (Hnz h t eq_refl). cbn [fold_left].
      pose proof (fold256_ge t (0 * 256 + bval h)). lia. }
    rewrite fold_left_app in Hpos, Hlt |- *. cbn [fold_left] in Hpos, Hlt |- *.
    set (V := fold_left (fun acc b => acc * 256 + bval b) init 0) in *.
    pose proof (Byte.to_N_bounded b) as Hb.
    destruct F as [|f].
    + simpl in Hlt. lia.
    + cbn [Base58.be_bytes]. destruct (N.eqb_spec (V * 256 + bval b) 0) as [E|_]; [lia|].
      rewrite Nat2N.inj_succ, N.pow_succ_r' in Hlt.
      replace ((V * 256 + bval b) / 256) with V by (unfold bval in *; euclid).
      assert (Hlow : Base58.low_byte (V * 256 + bval b) = b).
      { unfold Base58.low_byte.
        replace ((V * 256 + bval b) mod 256) with (bval b) by (unfold bval in *; euclid).
        unfold bval. rewrite Byte.of_to_N. reflexivity. }
      rewrite Hlow, IH; [reflexivity| |].
      * intros h t Ht. apply (Hnz h (t ++ [b])). rewrite Ht. reflexivity.
      * unfold bval in *. nia.
Qed.

Lemma leading_zero_split data :
  data = repeat Byte.x00 (Base58.leading_zero_bytes data)
         ++ skipn (Base58.leading_zero_bytes data) data /\
  (forall h t, skipn (Base58.leading_zero_bytes data) data = h :: t -> bval h <> 0).
Proof.
  induction data as [|b rest [IH1 IH2]]; [split; [reflexivity|intros h t H; discriminate H]|].
  cbn [Base58.leading_zero_bytes]. destruct (N.eqb_spec (bval b) 0) as [E|E].
  - apply byte_zero in E. subst b. cbn [repeat app skipn]. split; [f_equal; exact IH1|exact IH2].
  - cbn [repeat app skipn]. split; [reflexivity|]. intros h t H. injection H as <- _. exact E.
Qed.

Lemma b58_decode_encode data : Base58.decode (Base58.encode data) = Ok data.
Proof.
  destruct (leading_zero_split data) as [Hsplit Hnz].
  set (z := Base58.leading_zero_bytes data) in *.
  set (rest := skipn z data) in *.
  set (value := fold_left (fun acc b => acc * 256 + bval b) data 0).
  assert (Hv : value = fold_left (fun acc b => acc * 256 + bval b) rest 0).
  { unfold value. rewrite Hsplit at 1. apply fold256_zeros. }
  assert (Hfuel : value < 58 ^ N.of_nat (2 * length data)).
  { pose proof (fold256_lt data) as H. fold value in H.
    rewrite Nat2N.inj_mul, N.pow_mul_r. eapply N.lt_le_trans; [exact H|].
    apply N.pow_le_mono_l. lia. }
  destruct (be_digits_spec _ _ Hfuel) as (F & B & L & Z & P).
  set (ds := Base58.be_digits (2 * length data) value) in *.
  unfold Base58.encode. fold value. fold z. fold ds.
  change "1"%char with (Base58.sym 0). rewrite <- map_repeat, <- map_app.
  unfold Base58.decode. rewrite b58_digits_map.
  2:{ apply Forall_app. split; [apply Forall_forall; intros x Hx; apply repeat_spec in Hx; lia|exact B]. }
  cbn [rbind]. rewrite fold58_zeros, F.
  rewrite b58_leading_ones.
  2:{ destruct (N.eqb_spec value 0) as [E|E]; [left; exact (Z E)|right].
      destruct (P ltac:(lia)) as (_ & H). exact H. }
  rewrite length_string_of_list, length_map, length_app, repeat_length.
  rewrite Hv, be_bytes_value; [rewrite <- Hsplit; reflexivity|exact Hnz|].
  rewrite <- Hv. eapply N.lt_le_trans; [exact L|].
  apply N.le_trans with (256 ^ N.of_nat (length ds)).
  - apply N.pow_le_mono_l. lia.
  - apply N.pow_le_mono_r; lia.
Qed.

Lemma pow_256_58 k : (k <= 32)%nat -> 256 ^ N.of_nat k <= 58 ^ (N.of_nat k + 12).
Proof.
  intros Hk.
  pose proof (forall_below (fun n => N.leb (256 ^ n) (58 ^ (n + 12))) 33 eq_refl
                (N.of_nat k) ltac:(lia)) as H.
  cbv beta in H. apply N.leb_le in H. exact H.
Qed.

Lemma b58_encode_length_32 pk :
  length pk = PUBKEY_BYTES -> (String.length (Base58.encode pk) <= MAX_BASE58_LEN)%nat.
Proof.
  intros Hlen. unfold PUBKEY_BYTES, MAX_BASE58_LEN in *.
  destruct (leading_zero_split pk) as [Hsplit Hnz].
  set (z := Base58.leading_zero_bytes pk) in *.
  set (rest := skipn z pk) in *.
  assert (Hr : (z + length rest = 32)%nat).
  { rewrite <- Hlen, Hsplit at 1. rewrite length_app, repeat_length. reflexivity. }
  set (value := fold_left (fun acc b => acc * 256 + bval b) pk 0).
  assert (Hv : value = fold_left (fun acc b => acc * 256 + bval b) rest 0).
  { unfold value. rewrite Hsplit at 1. apply fold256_zeros. }
  assert (Hfuel : value < 58 ^ N.of_nat (2 * length pk)).
  { pose proof (fold256_lt pk) as H. fold value in H.
    rewrite Nat2N.inj_mul, N.pow_mul_r. eapply N.lt_le_trans; [exact H|].
    apply N.pow_le_mono_l. lia. }
  destruct (be_digits_spec _ _ Hfuel) as (_ & _ & _ & Z & P).
  unfold Base58.encode. fold value. fold z.
  rewrite length_string_of_list, length_app, repeat_length, length_map.
  destruct (N.eqb_spec value 0) as [E|E].
  - rewrite (Z E). simpl. lia.
  - destruct (P ltac:(lia)) as (Hlow & d & t & Hds & _).
    set (ds := Base58.be_digits (2 * length pk) value) in *.
    assert (Hds1 : (1 <= length ds)%nat) by (rewrite Hds; simpl; lia).
    pose proof (fold256_lt rest) as Hup. rewrite <- Hv in Hup.
    pose proof (pow_256_58 (length rest) ltac:(lia)) as Hpow.
    assert (Hlt : 58 ^ (N.of_nat (length ds) - 1) < 58 ^ (N.of_nat (length rest) + 12)) by lia.
    apply N.pow_lt_mono_r_iff in Hlt; [lia|lia].
Qed.

Lemma pubkey_string_roundtrip (pk : Pubkey) :
  length pk = PUBKEY_BYTES -> pubkey_from_str (pubkey_to_string pk) = Ok pk.
Proof.
  intros Hlen. unfold pubkey_from_str, pubkey_to_string.
  pose proof (b58_encode_length_32 pk Hlen) as HL.
  destruct (Nat.ltb_spec MAX_BASE58_LEN (String.length (Base58.encode pk))) as [C|_]; [lia|].
  rewrite b58_decode_encode, Hlen. reflexivity.
Qed.

Lemma b58_encode_syms data :
  exists l, Forall (fun d => d < 58) l /\
            Base58.encode data = string_of_list_ascii (map Base58.sym l).
Proof.
  set (value := fold_left (fun acc b => acc * 256 + bval b) data 0).
  assert (Hfuel : value < 58 ^ N.of_nat (2 * length data)).
  { pose proof (fold256_lt data) as H. fold value in H.
    rewrite Nat2N.inj_mul, N.pow_mul_r. eapply N.lt_le_trans; [exact H|].
    apply N.pow_le_mono_l. lia. }
  destruct (be_digits_spec _ _ Hfuel) as (_ & B & _).
  exists (repeat 0 (Base58.leading_zero_bytes data) ++ Base58.be_digits (2 * length data) value).
  split.
  - apply Forall_app. split; [apply Forall_forall; intros x Hx; apply repeat_spec in Hx; lia|exact B].
  - unfold Base58.encode. fold value. rewrite map_app, map_repeat. reflexivity.
Qed.

Lemma b58_sym_not_colon d : d < 58 -> Ascii.eqb (Base58.sym d) ":" = false.
Proof.
  intros Hd.
  pose proof (forall_below (fun n => negb (Ascii.eqb (Base58.sym n) ":")) 58 eq_refl d Hd) as H.
  cbv beta in H. destruct (Ascii.eqb _ _); [discriminate H|reflexivity].
Qed.

Lemma b58_sym_not_zero d : d < 58 -> Ascii.eqb "0" (Base58.sym d) = false.
Proof.
  intros Hd.
  pose proof (forall_below (fun n => negb (Ascii.eqb "0" (Base58.sym n))) 58 eq_refl d Hd) as H.
  cbv beta in H. destruct (Ascii.eqb _ _); [discriminate H|reflexivity].
Qed.

Lemma b58_encode_no_colon data : count_char ":" (Base58.encode data) = 0%nat.
Proof.
  destruct (b58_encode_syms data) as (l & Hl & ->).
  induction Hl as [|d l Hd _ IH]; [reflexivity|].
  cbn [map string_of_list_ascii count_char]. rewrite b58_sym_not_colon by exact Hd. exact IH.
Qed.

Lemma b58_encode_not_hex data : starts_with "0x" (Base58.encode data) = false.
Proof.
  destruct (b58_encode_syms data) as (l & Hl & ->).
  destruct Hl as [|d l Hd _]; [reflexivity|].
  cbn [map string_of_list_ascii starts_with]. rewrite b58_sym_not_zero by exact Hd. reflexivity.
Qed.

(** X18: a 32-byte key written by [Pubkey::to_string] (base58, with one
    ['1'] per leading zero byte) is read back by [Pubkey::from_str] as the
    same key: the string is at most 44 characters and decodes to 32 bytes. *)
Theorem X18_pubkey_string_roundtrip (pk : Pubkey) :
  length pk = PUBKEY_BYTES -> pubkey_from_str (pubkey_to_string pk) = Ok pk.
Proof. exact (pubkey_string_roundtrip pk). Qed.

(** X19: the filter compiler reads back a key in base58: with [o] a valid
    offset and [pk] 32 bytes, [<o>:<base58 of pk>] compiles to a
    memory-compare filter at offset [o] with pattern [pk]. *)
Theorem X19_address_filter_roundtrip o n pk :
  parse_u64 o = Ok n -> length pk = PUBKEY_BYTES ->
  parse_filter (o ++ ":" ++ pubkey_to_string pk) = Ok (MemcmpFilter (Memcmp_new n (Bytes pk))).
Proof.
  intros Ho Hlen. unfold parse_filter.
  change (":" ++ pubkey_to_string pk)%string with (String ":" (pubkey_to_string pk)).
  rewrite split_at_first by (eapply parse_u64_no_colon; exact Ho).
  rewrite split_no_sep by apply b58_encode_no_colon.
  rewrite Ho. cbn [rbind map_err].
  unfold pubkey_to_string at 1. rewrite b58_encode_not_hex.
  rewrite pubkey_string_roundtrip by exact Hlen. reflexivity.
Qed.

Lemma X18_witness :
  length (repeat Byte.x00 2 ++ repeat Byte.xff 30) = PUBKEY_BYTES /\
  pubkey_from_str (pubkey_to_string (repeat Byte.x00 2 ++ repeat Byte.xff 30)) =
  Ok (repeat Byte.x00 2 ++ repeat Byte.xff 30).
Proof. split; [reflexivity|apply X18_pubkey_string_roundtrip; reflexivity]. Defined.

Lemma X19_witness :
  parse_u64 "10" = Ok 10 /\ length one_key = PUBKEY_BYTES /\
  parse_filter ("10" ++ ":" ++ pubkey_to_string one_key) =
  Ok (MemcmpFilter (Memcmp_new 10 (Bytes one_key))).
Proof.
  split; [reflexivity|]. split; [reflexivity|].
  apply X19_address_filter_roundtrip; reflexivity.
Defined.
